(** * include/linux/memremap.h: device-backed memory regions

    A shallow embedding of the ZONE_DEVICE interface header: the metadata
    reservation ([vmem_altmap]), the region record ([dev_pagemap]), the
    registration and lookup entry points with their compiled-out stubs, the
    page classification predicates and the pin release helper.

    The header is compiled under a kernel configuration; the configuration
    is a record and every function whose body is chosen by the preprocessor
    takes it as its first argument.  Function bodies that the header only
    declares are written from the design document and say so. *)

From Stdlib Require Import ZArith List Bool Lia Sorted.
From stdpp Require Import base decidable option list gmap.

Local Open Scope Z_scope.

(** ** Build configuration *)

(** The preprocessor symbols the header tests. *)
Record kconfig := {
  CONFIG_ZONE_DEVICE : bool;
  CONFIG_PCI_P2PDMA : bool;
  CONFIG_DEVICE_PRIVATE : bool;
  CONFIG_DEVICE_PUBLIC : bool
}.

(** ** Data model *)

(** [struct vmem_altmap]: the fields are [unsigned long] frame counts; they
    are kept in [Z] so that "never below zero" is a statement and not a
    typing accident. *)
Record vmem_altmap := {
  base_pfn : Z;
  reserve : Z;
  free : Z;
  align : Z;
  alloc : Z
}.

(** [enum memory_type]. *)
Inductive memory_type :=
| MEMORY_DEVICE_HOST
| MEMORY_DEVICE_PRIVATE
| MEMORY_DEVICE_PUBLIC
| MEMORY_DEVICE_PCI_P2PDMA.

(** Modelled from the spec: [struct resource] is declared in linux/ioport.h,
    which is not among the sources; the design document describes the
    physical range of a region as a start address and a length.  A range
    holds at least one byte, as a well-formed kernel resource with its
    inclusive end does. *)
Record resource := {
  res_start : Z;
  res_len : positive
}.

(** [struct dev_pagemap].  Function pointers and plain pointers are
    addresses; a null function pointer is [None]. *)
Record dev_pagemap := {
  page_fault : option N;
  page_free : option N;
  altmap : vmem_altmap;
  altmap_valid : bool;
  res : resource;
  ref : N;
  dev : N;
  data : N;
  type : memory_type;
  pci_p2pdma_bus_offset : Z
}.

#[global] Instance vmem_altmap_eq_dec : EqDecision vmem_altmap.
Proof. solve_decision. Defined.
#[global] Instance memory_type_eq_dec : EqDecision memory_type.
Proof. solve_decision. Defined.
#[global] Instance resource_eq_dec : EqDecision resource.
Proof. solve_decision. Defined.
#[global] Instance dev_pagemap_eq_dec : EqDecision dev_pagemap.
Proof. solve_decision. Defined.

(** Modelled from the spec: [struct page] and the body of
    [is_zone_device_page] live in linux/mm_types.h and linux/mm.h, which are
    not among the sources (the header only forward-declares the predicate).
    A page records whether it is device-backed and carries the
    back-reference to its owning region, null for a page that has none. *)
Record page := {
  zone_device : bool;
  pgmap : option dev_pagemap
}.

Definition is_zone_device_page (pg : page) : bool := zone_device pg.

(** ** Page classification *)

(** The memory type of the region a page refers back to, when it refers to
    one. *)
Definition region_type (pg : page) : option memory_type :=
  type <$> pgmap pg.

(** [page->pgmap->type == t]; dereferencing a null back-reference is a
    fault, [None]. *)
Definition pgmap_type_is (pg : page) (t : memory_type) : option bool :=
  match pgmap pg with
  | Some m => Some (bool_decide (type m = t))
  | None => None
  end.

(** [a && b] of C: the right operand is evaluated only when the left one is
    true. *)
Definition and_then (a : bool) (b : option bool) : option bool :=
  if a then b else Some false.

(** Lines 170-181: the body depends on CONFIG_PCI_P2PDMA. *)
Definition is_pci_p2pdma_page (cfg : kconfig) (pg : page) : option bool :=
  if CONFIG_PCI_P2PDMA cfg
  then and_then (is_zone_device_page pg)
                (pgmap_type_is pg MEMORY_DEVICE_PCI_P2PDMA)
  else Some false.

(** Lines 183-195.  The header defines the next two predicates only when
    CONFIG_DEVICE_PRIVATE or CONFIG_DEVICE_PUBLIC is set and gives no other
    body; these are the definitions it gives. *)
Definition is_device_private_page (pg : page) : option bool :=
  and_then (is_zone_device_page pg) (pgmap_type_is pg MEMORY_DEVICE_PRIVATE).

Definition is_device_public_page (pg : page) : option bool :=
  and_then (is_zone_device_page pg) (pgmap_type_is pg MEMORY_DEVICE_PUBLIC).

(** ** Platform constants *)

(** Modelled from the spec: the page size, the alignment the platform
    requires for an allocation of a given frame count, and the number of
    metadata frames a physical range needs come from architecture headers
    that are not among the sources.  An alignment is a positive frame
    count. *)
Record platform := {
  PAGE_SHIFT : Z;
  required_alignment : Z -> positive;
  memmap_frames : resource -> N
}.

(** ** Metadata allocator *)

(** The bump cursor: the first frame after the reserved frames and after
    everything handed out or skipped so far. *)
Definition next_pfn (a : vmem_altmap) : Z :=
  base_pfn a + reserve a + alloc a + align a.

(** Frames to skip so that the cursor meets the alignment required for a
    request of [n] frames. *)
Definition padding (plat : platform) (a : vmem_altmap) (n : Z) : Z :=
  (- next_pfn a) mod Z.pos (required_alignment plat n).

(** Modelled from the spec: the allocation routine lives in
    mm/sparse-vmemmap.c, which is not among the sources.  Section 4.1:
    "allocate first consumes alignment_padding_frames as needed to satisfy
    the platform's required alignment for the requested count, then
    decrements free_frames; it fails if the request exceeds remaining
    free_frames after padding."  Section 3 calls the padding "frames
    consumed purely to satisfy allocation alignment (recorded, not
    reusable)" and [free] the "frames still available for metadata
    allocation".  So the padding is taken out of [free] and recorded in
    [align], and the request is then taken out of what remains and recorded
    in [alloc]; a frame is counted in one of the four fields only.  A failed
    request changes nothing.  The result is the offset of the block from
    [base_pfn]. *)
Definition allocate (plat : platform) (a : vmem_altmap) (n : Z)
  : option (Z * vmem_altmap) :=
  let pad := padding plat a n in
  if free a - pad <? n then None
  else Some (next_pfn a + pad - base_pfn a,
             {| base_pfn := base_pfn a;
                reserve := reserve a;
                free := free a - pad - n;
                align := align a + pad;
                alloc := alloc a + n |}).

(** Modelled from the spec: with CONFIG_ZONE_DEVICE the header only declares
    [vmem_altmap_free] (line 137); its body is in kernel/memremap.c.
    Section 4.1: "free(nr_frames) reclaims frames only from the most
    recently allocated tail"; section 9 asks that a free that does not fit
    be rejected.  The frames come off the end of what was handed out and
    return to the free pool; a request for more than was handed out is
    rejected, [None]. *)
Definition altmap_reclaim (a : vmem_altmap) (nr_pfns : Z) : option vmem_altmap :=
  if alloc a <? nr_pfns then None
  else Some {| base_pfn := base_pfn a;
               reserve := reserve a;
               free := free a + nr_pfns;
               align := align a;
               alloc := alloc a - nr_pfns |}.

(** Lines 137 and 164-167: without CONFIG_ZONE_DEVICE the function has an
    empty body. *)
Definition vmem_altmap_free (cfg : kconfig) (a : vmem_altmap) (nr_pfns : Z)
  : option vmem_altmap :=
  if CONFIG_ZONE_DEVICE cfg then altmap_reclaim a nr_pfns else Some a.

(** Allocator calls, for statements about sequences of them.  A call that
    fails leaves the reservation as it was. *)
Inductive altmap_op :=
| Allocate (n : Z)
| Free (n : Z).

Definition op_count (o : altmap_op) : Z :=
  match o with Allocate n => n | Free n => n end.

Definition altmap_step (cfg : kconfig) (plat : platform)
    (a : vmem_altmap) (o : altmap_op) : vmem_altmap :=
  match o with
  | Allocate n => match allocate plat a n with Some (_, a') => a' | None => a end
  | Free n => match vmem_altmap_free cfg a n with Some a' => a' | None => a end
  end.

Definition altmap_run (cfg : kconfig) (plat : platform)
    (ops : list altmap_op) (a : vmem_altmap) : vmem_altmap :=
  fold_left (altmap_step cfg plat) ops a.

(** What a reservation holds of its backing range. *)
Definition altmap_frames (a : vmem_altmap) : Z :=
  reserve a + free a + align a + alloc a.

(** ** Region registry *)

(** [PFN_PHYS]: the physical address of a frame. *)
Definition PFN_PHYS (plat : platform) (pfn : Z) : Z :=
  Z.shiftl pfn (PAGE_SHIFT plat).

Definition res_end (r : resource) : Z := res_start r + Z.pos (res_len r).

(** The address lies in the range. *)
Definition res_contains (r : resource) (phys : Z) : bool :=
  (res_start r <=? phys) && (phys <? res_end r).

(** The two ranges share an address. *)
Definition res_overlaps (r1 r2 : resource) : bool :=
  (res_start r1 <? res_end r2) && (res_start r2 <? res_end r1).

(** The region's range contains the frame. *)
Definition contains (plat : platform) (p : dev_pagemap) (pfn : Z) : bool :=
  res_contains (res p) (PFN_PHYS plat pfn).

(** Why a registration is refused.  [ENXIO] is the errno the compiled-out
    stub returns (line 150); the other three are the failures the design
    document lists for registration. *)
Inductive register_error :=
| ENXIO
| Overlap
| MissingFaultHandler
| AllocatorExhausted.

(** Section 7 of the design document: overlapping registration, missing
    required fault handler and capability compiled out are configuration
    errors; running out of reserved metadata space is resource
    exhaustion. *)
Definition is_configuration_error (e : register_error) : bool :=
  match e with
  | ENXIO | Overlap | MissingFaultHandler => true
  | AllocatorExhausted => false
  end.

(** The [void *] that registration returns: the region handle, or
    [ERR_PTR(-errno)]. *)
Inductive register_result :=
| Registered (handle : dev_pagemap)
| ERR_PTR (e : register_error).

(** The state registration, lookup and pinning act on: the address-ordered
    index of live regions, the single-entry cache of the last resolved
    region, the pin count stored at each [percpu_ref] address, the log of
    teardown runs (by pin), the log of [unregister] calls, and whether the
    kernel has warned. *)
Record system := {
  index : list dev_pagemap;
  cache : option dev_pagemap;
  pins : gmap N Z;
  teardowns : list N;
  unregistered : list dev_pagemap;
  warned : bool
}.

Definition boot : system :=
  {| index := []; cache := None; pins := ∅; teardowns := [];
     unregistered := []; warned := false |}.

(** Search of the address-ordered index: ranges that start beyond the
    address end the search. *)
Fixpoint find_dev_pagemap (phys : Z) (l : list dev_pagemap) : option dev_pagemap :=
  match l with
  | [] => None
  | p :: l' =>
      if phys <? res_start (res p) then None
      else if phys <? res_end (res p) then Some p
      else find_dev_pagemap phys l'
  end.

(** Insertion that keeps the index ordered by start address. *)
Fixpoint insert_region (p : dev_pagemap) (l : list dev_pagemap) : list dev_pagemap :=
  match l with
  | [] => [p]
  | q :: l' =>
      if res_start (res p) <=? res_start (res q) then p :: q :: l'
      else q :: insert_region p l'
  end.

(** A region the CPU cannot address needs a fault handler. *)
Definition cpu_inaccessible (t : memory_type) : bool :=
  bool_decide (t = MEMORY_DEVICE_PRIVATE).

Definition with_altmap (p : dev_pagemap) (a : vmem_altmap) : dev_pagemap :=
  {| page_fault := page_fault p; page_free := page_free p;
     altmap := a; altmap_valid := altmap_valid p; res := res p;
     ref := ref p; dev := dev p; data := data p; type := type p;
     pci_p2pdma_bus_offset := pci_p2pdma_bus_offset p |}.

Definition with_dev (p : dev_pagemap) (d : N) : dev_pagemap :=
  {| page_fault := page_fault p; page_free := page_free p;
     altmap := altmap p; altmap_valid := altmap_valid p; res := res p;
     ref := ref p; dev := d; data := data p; type := type p;
     pci_p2pdma_bus_offset := pci_p2pdma_bus_offset p |}.

(** Per-frame bookkeeping for the range: carved out of the region's own
    reservation when it supplies one. *)
Definition materialize (plat : platform) (p : dev_pagemap) : option dev_pagemap :=
  if altmap_valid p then
    match allocate plat (altmap p) (Z.of_N (memmap_frames plat (res p))) with
    | Some (_, a') => Some (with_altmap p a')
    | None => None
    end
  else Some p.

(** Issuing a pin: the count at the address goes up by one, from zero when
    the address holds no count yet. *)
Definition pin_issue (k : N) (m : gmap N Z) : gmap N Z :=
  <[k := default 0 (m !! k) + 1]> m.

(** Modelled from the spec: with CONFIG_ZONE_DEVICE the header only declares
    [devm_memremap_pages] (line 132); its body is in kernel/memremap.c.
    Section 4.2: "Registration fails if the new range overlaps any live
    region, or if memory_type is inaccessible-to-CPU and no fault handler is
    supplied.  On success, it materializes per-frame bookkeeping [...] and
    inserts the range into an address-ordered index"; section 2: the
    lifecycle controller issues a pin handle back to the caller.  A refused
    registration leaves the state as it was. *)
Definition register (plat : platform) (d : N) (p : dev_pagemap) (st : system)
  : register_result * system :=
  if existsb (fun q => res_overlaps (res p) (res q)) (index st)
  then (ERR_PTR Overlap, st)
  else if cpu_inaccessible (type p) && negb (bool_decide (is_Some (page_fault p)))
  then (ERR_PTR MissingFaultHandler, st)
  else match materialize plat (with_dev p d) with
       | None => (ERR_PTR AllocatorExhausted, st)
       | Some h =>
           (Registered h,
            {| index := insert_region h (index st);
               cache := cache st;
               pins := pin_issue (ref h) (pins st);
               teardowns := teardowns st;
               unregistered := unregistered st;
               warned := warned st |})
       end.

(** Lines 131-151.  Without CONFIG_ZONE_DEVICE: [WARN_ON_ONCE(1)] and
    [ERR_PTR(-ENXIO)]. *)
Definition devm_memremap_pages (cfg : kconfig) (plat : platform)
    (d : N) (p : dev_pagemap) (st : system) : register_result * system :=
  if CONFIG_ZONE_DEVICE cfg then register plat d p st
  else (ERR_PTR ENXIO,
        {| index := index st; cache := cache st; pins := pins st;
           teardowns := teardowns st; unregistered := unregistered st;
           warned := true |}).

(** Lines 133-134 and 153-157.  Without CONFIG_ZONE_DEVICE the function
    returns NULL.
    Modelled from the spec: with CONFIG_ZONE_DEVICE the header only declares
    the function; its body is in kernel/memremap.c.  Section 4.2: a search
    over the ordered index, with "a single-entry cache of the last resolved
    region" that "short-circuits successive lookups that fall in the same
    range"; the second argument is that cached region. *)
Definition get_dev_pagemap (cfg : kconfig) (plat : platform)
    (pfn : Z) (cached : option dev_pagemap) (st : system) : option dev_pagemap :=
  if CONFIG_ZONE_DEVICE cfg then
    match cached with
    | Some c =>
        if contains plat c pfn then Some c
        else find_dev_pagemap (PFN_PHYS plat pfn) (index st)
    | None => find_dev_pagemap (PFN_PHYS plat pfn) (index st)
    end
  else None.

(** The registry's lookup: [get_dev_pagemap] with the registry's cache,
    which then remembers the region that was resolved. *)
Definition lookup (cfg : kconfig) (plat : platform) (pfn : Z) (st : system)
  : option dev_pagemap * system :=
  match get_dev_pagemap cfg plat pfn (cache st) st with
  | Some p =>
      (Some p,
       {| index := index st; cache := Some p; pins := pins st;
          teardowns := teardowns st; unregistered := unregistered st;
          warned := warned st |})
  | None => (None, st)
  end.

(** Modelled from the spec: section 4.2, "unregister(handle) removes the
    range from the index and releases its metadata"; section 4.3: teardown
    "invalidates the handle so that any subsequent lookup against its range
    returns None".  The reservation is part of the record and goes with
    it; a cache entry for the region is dropped; the call is logged. *)
Definition unregister (p : dev_pagemap) (st : system) : system :=
  {| index := List.filter (fun q => negb (bool_decide (q = p))) (index st);
     cache := if bool_decide (cache st = Some p) then None else cache st;
     pins := pins st;
     teardowns := teardowns st;
     unregistered := unregistered st ++ [p];
     warned := warned st |}.

Fixpoint unregister_all (ps : list dev_pagemap) (st : system) : system :=
  match ps with
  | [] => st
  | p :: ps' => unregister_all ps' (unregister p st)
  end.

(** The regions pinned through the [percpu_ref] at address [k]. *)
Definition pinned_by (k : N) (l : list dev_pagemap) : list dev_pagemap :=
  List.filter (fun q => bool_decide (ref q = k)) l.

(** Modelled from the spec: section 4.3, "When the count transitions to
    zero, teardown runs exactly once: it invokes unregister on the Region
    Registry and invalidates the handle".  The run is logged and the count
    at the address is left at zero, which marks the pin dead. *)
Definition teardown (k : N) (st : system) : system :=
  let st' := unregister_all (pinned_by k (index st)) st in
  {| index := index st'; cache := cache st';
     pins := <[k := 0]> (pins st');
     teardowns := teardowns st' ++ [k];
     unregistered := unregistered st';
     warned := warned st' |}.

Definition set_pin (k : N) (c : Z) (st : system) : system :=
  {| index := index st; cache := cache st; pins := <[k := c]> (pins st);
     teardowns := teardowns st; unregistered := unregistered st;
     warned := warned st |}.

(** Modelled from the spec: [percpu_ref_get] and [percpu_ref_put] are
    declared in linux/percpu-refcount.h, which is not among the sources.
    Section 4.3: "acquire(handle) -> pin increments the shared count;
    release(pin) decrements it", and "double-release (decrementing past
    zero) is a caller error and is a fatal/unreachable condition".  The
    acquire has no failure; a release that finds no count to take from is
    the fatal condition, [None]. *)
Definition percpu_ref_get (k : N) (st : system) : system :=
  set_pin k (default 0 (pins st !! k) + 1) st.

Definition percpu_ref_put (k : N) (st : system) : option system :=
  match pins st !! k with
  | Some c =>
      if 0 <? c then
        if c - 1 =? 0 then Some (teardown k st)
        else Some (set_pin k (c - 1) st)
      else None
  | None => None
  end.

(** Lines 197-201. *)
Definition put_dev_pagemap (p : option dev_pagemap) (st : system) : option system :=
  match p with
  | Some m => percpu_ref_put (ref m) st
  | None => Some st
  end.

(** The acquire side of the pin, on a region handle. *)
Definition acquire (p : dev_pagemap) (st : system) : system :=
  percpu_ref_get (ref p) st.

(** Calls into the subsystem, for statements about reachable states. *)
Inductive call :=
| CallRegister (d : N) (p : dev_pagemap)
| CallLookup (pfn : Z)
| CallAcquire (p : dev_pagemap)
| CallRelease (p : option dev_pagemap).

Definition is_register (c : call) : bool :=
  match c with CallRegister _ _ => true | _ => false end.

Definition do_call (cfg : kconfig) (plat : platform) (c : call) (st : system)
  : option system :=
  match c with
  | CallRegister d p => Some (snd (devm_memremap_pages cfg plat d p st))
  | CallLookup pfn => Some (snd (lookup cfg plat pfn st))
  | CallAcquire p => Some (acquire p st)
  | CallRelease p => put_dev_pagemap p st
  end.

Fixpoint run (cfg : kconfig) (plat : platform) (cs : list call) (st : system)
  : option system :=
  match cs with
  | [] => Some st
  | c :: cs' =>
      match do_call cfg plat c st with
      | Some st' => run cfg plat cs' st'
      | None => None
      end
  end.

(** A pin's holders acquire and release it in some order. *)
Inductive pin_call := Acquire | Release.

Definition pin_calls (p : dev_pagemap) (tr : list pin_call) : list call :=
  map (fun c => match c with
                | Acquire => CallAcquire p
                | Release => CallRelease (Some p)
                end) tr.

Definition same_pin_call (c c' : pin_call) : bool :=
  match c, c' with
  | Acquire, Acquire | Release, Release => true
  | _, _ => false
  end.

Fixpoint count_calls (c : pin_call) (tr : list pin_call) : Z :=
  match tr with
  | [] => 0
  | c' :: tr' => (if same_pin_call c c' then 1 else 0) + count_calls c tr'
  end.

(** The pin count after the calls, by counting alone: one up for an acquire,
    one down for a release. *)
Fixpoint count_after (c : Z) (tr : list pin_call) : Z :=
  match tr with
  | [] => c
  | Acquire :: tr' => count_after (c + 1) tr'
  | Release :: tr' => count_after (c - 1) tr'
  end.

(** No release of the sequence finds the count at zero. *)
Fixpoint no_double_release (c : Z) (tr : list pin_call) : bool :=
  match tr with
  | [] => true
  | Acquire :: tr' => no_double_release (c + 1) tr'
  | Release :: tr' => (0 <? c) && no_double_release (c - 1) tr'
  end.

(** How often the count goes from one to zero along the sequence. *)
Fixpoint zero_transitions (c : Z) (tr : list pin_call) : nat :=
  match tr with
  | [] => 0%nat
  | Acquire :: tr' => zero_transitions (c + 1) tr'
  | Release :: tr' =>
      ((if (c =? 1)%Z then 1 else 0) + zero_transitions (c - 1)%Z tr')%nat
  end.

(** The pin count of a region. *)
Definition pin_count (p : dev_pagemap) (st : system) : Z :=
  default 0 (pins st !! ref p).

(** ** Frame release path *)

(** One invocation of a [dev_page_free_t] callback: the callback called, the
    frame it was called for and the [data] pointer passed along. *)
Record free_call := {
  fc_handler : N;
  fc_pfn : Z;
  fc_data : N
}.

(** Modelled from the spec: the frame table and the page reference counts
    belong to linux/mm.h and mm/, which are not among the sources.  The
    table maps a frame number to its page and to its reference count;
    [freed] logs the [page_free] invocations in order. *)
Record frame_table := {
  frames : gmap Z page;
  refcounts : gmap Z Z;
  freed : list free_call
}.

Definition refcount_of (pfn : Z) (ft : frame_table) : Z :=
  default 0 (refcounts ft !! pfn).

Definition set_refcount (pfn c : Z) (ft : frame_table) : frame_table :=
  {| frames := frames ft; refcounts := <[pfn := c]> (refcounts ft);
     freed := freed ft |}.

(** Modelled from the spec: section 4.4, "dispatch_free(region, frame,
    private_data)".  [page->pgmap->page_free(page, page->pgmap->data)];
    calling through a null pointer is a fault, [None]. *)
Definition dispatch_free (m : dev_pagemap) (pfn : Z) (ft : frame_table)
  : option frame_table :=
  match page_free m with
  | Some h =>
      Some {| frames := frames ft; refcounts := refcounts ft;
              freed := freed ft ++ [{| fc_handler := h; fc_pfn := pfn;
                                       fc_data := data m |}] |}
  | None => None
  end.

(** Taking a reference on a frame. *)
Definition get_page (pfn : Z) (ft : frame_table) : option frame_table :=
  match frames ft !! pfn, refcounts ft !! pfn with
  | Some _, Some c => Some (set_refcount pfn (c + 1) ft)
  | _, _ => None
  end.

(** Modelled from the spec: the generic frame-release path.  Lines 94-96 of
    the header: "The page_free() callback is called once the page refcount
    reaches 1 (ZONE_DEVICE pages never reach 0 refcount unless there is a
    refcount bug [...])".  The count goes down by one; when that brings a
    device-backed frame to 1, its region's callback is called.  Nothing
    stops a release at the floor: that is the refcount bug of the comment,
    and it takes the count to 0. *)
Definition put_page (pfn : Z) (ft : frame_table) : option frame_table :=
  match frames ft !! pfn, refcounts ft !! pfn with
  | Some pg, Some c =>
      if is_zone_device_page pg && (c - 1 =? 1) then
        match pgmap pg with
        | Some m => dispatch_free m pfn (set_refcount pfn (c - 1) ft)
        | None => None
        end
      else Some (set_refcount pfn (c - 1) ft)
  | _, _ => None
  end.

Inductive frame_call :=
| GetPage (pfn : Z)
| PutPage (pfn : Z).

Definition frame_step (c : frame_call) (ft : frame_table) : option frame_table :=
  match c with
  | GetPage pfn => get_page pfn ft
  | PutPage pfn => put_page pfn ft
  end.

Fixpoint frame_run (cs : list frame_call) (ft : frame_table) : option frame_table :=
  match cs with
  | [] => Some ft
  | c :: cs' =>
      match frame_step c ft with
      | Some ft' => frame_run cs' ft'
      | None => None
      end
  end.

(** The frame is device-backed. *)
Definition device_backed (pfn : Z) (ft : frame_table) : bool :=
  match frames ft !! pfn with
  | Some pg => is_zone_device_page pg
  | None => false
  end.

Definition call_frame (c : frame_call) : Z :=
  match c with GetPage pfn => pfn | PutPage pfn => pfn end.

(** The count of frame [pfn] after the calls, by counting alone: one up for
    a [get_page] on the frame, one down for a [put_page] on it. *)
Fixpoint refcount_after (pfn c : Z) (cs : list frame_call) : Z :=
  match cs with
  | [] => c
  | GetPage p :: cs' =>
      refcount_after pfn (if bool_decide (p = pfn) then c + 1 else c) cs'
  | PutPage p :: cs' =>
      refcount_after pfn (if bool_decide (p = pfn) then c - 1 else c) cs'
  end.

(** How often the count of frame [pfn] goes from 2 to 1 along the calls. *)
Fixpoint falls_to_one (pfn c : Z) (cs : list frame_call) : nat :=
  match cs with
  | [] => 0%nat
  | GetPage p :: cs' =>
      falls_to_one pfn (if bool_decide (p = pfn) then c + 1 else c) cs'
  | PutPage p :: cs' =>
      if bool_decide (p = pfn)
      then ((if (c =? 2)%Z then 1 else 0) + falls_to_one pfn (c - 1)%Z cs')%nat
      else falls_to_one pfn c cs'
  end.

(** Every [put_page] on frame [pfn] has a holder behind it: it finds the
    count above the floor. *)
Fixpoint puts_have_holders (pfn c : Z) (cs : list frame_call) : bool :=
  match cs with
  | [] => true
  | GetPage p :: cs' =>
      puts_have_holders pfn (if bool_decide (p = pfn) then c + 1 else c) cs'
  | PutPage p :: cs' =>
      if bool_decide (p = pfn)
      then (1 <? c) && puts_have_holders pfn (c - 1) cs'
      else puts_have_holders pfn c cs'
  end.

(** The frame is in the table with a count, and when it is device-backed
    its page refers back to a region that supplies [page_free]. *)
Definition frame_ready (ft : frame_table) (pfn : Z) : bool :=
  match frames ft !! pfn, refcounts ft !! pfn with
  | Some pg, Some _ =>
      if is_zone_device_page pg then
        match pgmap pg with
        | Some m => bool_decide (is_Some (page_free m))
        | None => false
        end
      else true
  | _, _ => false
  end.

(** The [page_free] invocations logged for the frame. *)
Definition free_calls (pfn : Z) (ft : frame_table) : list free_call :=
  List.filter (fun fc => bool_decide (fc_pfn fc = pfn)) (freed ft).

(** The logged call went to the callback of the frame's region, with the
    region's [data]. *)
Definition owner_call (ft : frame_table) (fc : free_call) : Prop :=
  exists (pg : page) (m : dev_pagemap),
    frames ft !! fc_pfn fc = Some pg /\
    pgmap pg = Some m /\
    page_free m = Some (fc_handler fc) /\
    fc_data fc = data m.

(** ** Invariant of the reachable states *)

Definition by_start (p q : dev_pagemap) : Prop :=
  res_start (res p) <= res_start (res q).

(** The index is ordered by start address, holds no region twice and no two
    regions whose ranges overlap; the cache names a live region; every live
    region is pinned; no count is negative; and nothing is registered when
    support is compiled out. *)
Record system_ok (cfg : kconfig) (st : system) : Prop := {
  ok_sorted : StronglySorted by_start (index st);
  ok_nodup : List.NoDup (index st);
  ok_disjoint : forall p q, In p (index st) -> In q (index st) -> p <> q ->
                            res_overlaps (res p) (res q) = false;
  ok_cache : forall c, cache st = Some c -> In c (index st);
  ok_pinned : forall p, In p (index st) -> 0 < pin_count p st;
  ok_counts : forall k c, pins st !! k = Some c -> 0 <= c;
  ok_config : CONFIG_ZONE_DEVICE cfg = false -> index st = []
}.

(** ** The rest of the header *)

(** Lines 136 and 159-162.  Without CONFIG_ZONE_DEVICE the function returns
    0; with it the header only declares the function, and its body (in
    kernel/memremap.c) is a parameter here. *)
Definition vmem_altmap_offset (cfg : kconfig) (body : vmem_altmap -> Z)
    (a : vmem_altmap) : Z :=
  if CONFIG_ZONE_DEVICE cfg then body a else 0.

Definition is_free_op (o : altmap_op) : bool :=
  match o with Free _ => true | Allocate _ => false end.

(** The calls whose whole effect the header itself defines when support is
    compiled out: registration, lookup, and the release of a null handle. *)
Definition header_call (c : call) : bool :=
  match c with
  | CallRegister _ _ | CallLookup _ | CallRelease None => true
  | CallAcquire _ | CallRelease (Some _) => false
  end.

Definition is_null_release (c : call) : bool :=
  match c with CallRelease None => true | _ => false end.

(** ** Worked instances *)

(** Everything compiled in, and everything compiled out. *)
Definition cfg_all : kconfig :=
  {| CONFIG_ZONE_DEVICE := true; CONFIG_PCI_P2PDMA := true;
     CONFIG_DEVICE_PRIVATE := true; CONFIG_DEVICE_PUBLIC := true |}.

Definition cfg_none : kconfig :=
  {| CONFIG_ZONE_DEVICE := false; CONFIG_PCI_P2PDMA := false;
     CONFIG_DEVICE_PRIVATE := false; CONFIG_DEVICE_PUBLIC := false |}.

(** A platform with 4 KiB pages, where a request must start on a multiple
    of two frames and a range needs one metadata frame per 64 frames (or
    part of it). *)
Definition plat_4k : platform :=
  {| PAGE_SHIFT := 12;
     required_alignment := fun _ => 2%positive;
     memmap_frames := fun r => N.div (N.pos (res_len r) + 262143) 262144 |}.

(** A region of the given type, fault handler, range and pin address, with
    a [page_free] callback and no reservation of its own. *)
Definition altmap_none : vmem_altmap :=
  {| base_pfn := 0; reserve := 0; free := 0; align := 0; alloc := 0 |}.

Definition region (t : memory_type) (fault : option N) (start : Z)
    (len : positive) (k : N) : dev_pagemap :=
  {| page_fault := fault; page_free := Some 7%N; altmap := altmap_none;
     altmap_valid := false; res := {| res_start := start; res_len := len |};
     ref := k; dev := 0%N; data := 9%N; type := t;
     pci_p2pdma_bus_offset := 0 |}.

Definition p2p_page : page :=
  {| zone_device := true;
     pgmap := Some (region MEMORY_DEVICE_PCI_P2PDMA None 4096 4096 1) |}.

Definition private_page : page :=
  {| zone_device := true;
     pgmap := Some (region MEMORY_DEVICE_PRIVATE (Some 5%N) 4096 4096 1) |}.

(** A state in which one region is registered, built with support compiled
    in. *)
Definition host_region : dev_pagemap :=
  region MEMORY_DEVICE_HOST None 4096 8192 1.

Definition st_one : system :=
  snd (devm_memremap_pages cfg_all plat_4k 3 host_region boot).

(** A reservation whose cursor sits on an odd frame, with ten free
    frames. *)
Definition altmap_odd : vmem_altmap :=
  {| base_pfn := 1; reserve := 0; free := 10; align := 0; alloc := 0 |}.

(** Three registrations, the second refused for overlapping the first,
    then a lookup in the first region; and the state they leave. *)
Definition public_region : dev_pagemap :=
  region MEMORY_DEVICE_PUBLIC None 65536 4096 2.

Definition three_registrations : list call :=
  [CallRegister 3 public_region;
   CallRegister 3 (region MEMORY_DEVICE_HOST None 61440 8192 5);
   CallRegister 3 host_region;
   CallLookup 16].

Definition st_two : system :=
  default boot (run cfg_all plat_4k three_registrations boot).

(** A table with a device-private frame and an ordinary one, both with a
    single reference. *)
Definition ft_two : frame_table :=
  {| frames := <[5 := private_page]>
                 (<[6 := {| zone_device := false; pgmap := None |}]> ∅);
     refcounts := <[5 := 1]> (<[6 := 1]> ∅);
     freed := [] |}.

(** The device frame is taken and released by two holders, then by a
    third; the ordinary frame is released for good. *)
Definition two_holders : list frame_call :=
  [GetPage 5; GetPage 5; PutPage 5; PutPage 5; GetPage 5; PutPage 5; PutPage 6].

(** A device-backed page of a host region, and an ordinary page with no
    back-reference. *)
Definition host_page : page :=
  {| zone_device := true; pgmap := Some host_region |}.

Definition ordinary_page : page :=
  {| zone_device := false; pgmap := None |}.

(** Registrations, lookups and null releases, to be run with support
    compiled out. *)
Definition header_calls : list call :=
  [CallLookup 2; CallRegister 3 host_region; CallRelease None; CallLookup 2].

(** * Properties *)

(** ** Compiled-out stubs *)

Lemma and_then_true (a : bool) (b : option bool) :
  and_then a b = Some true <-> a = true /\ b = Some true.
Proof.
  destruct a; simpl; split.
  - intros ->. auto.
  - intros [_ ->]. reflexivity.
  - discriminate.
  - intros [H _]. discriminate.
Qed.

Lemma pgmap_type_is_true (pg : page) (t : memory_type) :
  pgmap_type_is pg t = Some true <-> region_type pg = Some t.
Proof.
  unfold pgmap_type_is, region_type.
  destruct (pgmap pg) as [m|]; simpl; [|split; discriminate].
  split.
  - intros H. injection H as H. apply bool_decide_eq_true in H. congruence.
  - intros H. injection H as H. f_equal. apply bool_decide_eq_true. exact H.
Qed.

Lemma pgmap_type_is_ext (pg pg' : page) (t : memory_type) :
  region_type pg' = region_type pg ->
  pgmap_type_is pg' t = pgmap_type_is pg t.
Proof.
  unfold pgmap_type_is, region_type.
  destruct (pgmap pg') as [m'|], (pgmap pg) as [m|]; simpl; try discriminate.
  - intros H. injection H as ->. reflexivity.
  - reflexivity.
Qed.

(** C10.  When peer-to-peer DMA support is compiled out,
    [is_pci_p2pdma_page] answers false for every page, whatever the page's
    zone and whatever the memory type of its region. *)
Theorem is_pci_p2pdma_page_compiled_out (cfg : kconfig) (pg : page) :
  CONFIG_PCI_P2PDMA cfg = false ->
  is_pci_p2pdma_page cfg pg = Some false.
Proof.
  intros Hoff. unfold is_pci_p2pdma_page. rewrite Hoff. reflexivity.
Qed.

Lemma is_pci_p2pdma_page_compiled_out_witness :
  region_type p2p_page = Some MEMORY_DEVICE_PCI_P2PDMA /\
  is_pci_p2pdma_page cfg_none p2p_page = Some false.
Proof.
  split.
  - reflexivity.
  - apply (is_pci_p2pdma_page_compiled_out cfg_none p2p_page). reflexivity.
Defined.

(** C7.  The bodies at lines 171-175, 184-188 and 190-194 (the
    peer-to-peer one is the body under CONFIG_PCI_P2PDMA): each predicate
    answers true exactly when the page is device-backed and the memory type
    of its region is the predicate's tag; and the answer depends on nothing
    but whether the page is device-backed and that memory type. *)
Theorem classification_by_memory_type (cfg : kconfig) (pg : page) :
  CONFIG_PCI_P2PDMA cfg = true ->
  (is_device_private_page pg = Some true <->
     is_zone_device_page pg = true /\
     region_type pg = Some MEMORY_DEVICE_PRIVATE) /\
  (is_device_public_page pg = Some true <->
     is_zone_device_page pg = true /\
     region_type pg = Some MEMORY_DEVICE_PUBLIC) /\
  (is_pci_p2pdma_page cfg pg = Some true <->
     is_zone_device_page pg = true /\
     region_type pg = Some MEMORY_DEVICE_PCI_P2PDMA) /\
  (forall pg' : page,
     is_zone_device_page pg' = is_zone_device_page pg ->
     region_type pg' = region_type pg ->
     is_device_private_page pg' = is_device_private_page pg /\
     is_device_public_page pg' = is_device_public_page pg /\
     is_pci_p2pdma_page cfg pg' = is_pci_p2pdma_page cfg pg).
Proof.
  intros Hon.
  unfold is_device_private_page, is_device_public_page, is_pci_p2pdma_page.
  rewrite Hon.
  split; [|split; [|split]].
  1-3: rewrite and_then_true, pgmap_type_is_true; reflexivity.
  intros pg' Hz Ht. rewrite Hz.
  rewrite !(pgmap_type_is_ext pg pg') by exact Ht.
  auto.
Qed.

Lemma classification_by_memory_type_witness :
  CONFIG_PCI_P2PDMA cfg_all = true /\
  is_device_private_page private_page = Some true /\
  is_pci_p2pdma_page cfg_all p2p_page = Some true.
Proof.
  split; [reflexivity|]. split.
  - destruct (classification_by_memory_type cfg_all private_page eq_refl)
      as (Hprivate & _).
    apply Hprivate. split; reflexivity.
  - destruct (classification_by_memory_type cfg_all p2p_page eq_refl)
      as (_ & _ & Hp2p & _).
    apply Hp2p. split; reflexivity.
Defined.

(** ** Registration and lookup without device-backed memory support *)

(** C3.  Without CONFIG_ZONE_DEVICE, registration fails with [-ENXIO], the
    capability-unavailable error, and lookup returns nothing, for every
    argument and from every state. *)
Theorem zone_device_compiled_out (cfg : kconfig) (plat : platform)
    (d : N) (p : dev_pagemap) (pfn : Z) (cached : option dev_pagemap)
    (st : system) :
  CONFIG_ZONE_DEVICE cfg = false ->
  fst (devm_memremap_pages cfg plat d p st) = ERR_PTR ENXIO /\
  index (snd (devm_memremap_pages cfg plat d p st)) = index st /\
  get_dev_pagemap cfg plat pfn cached st = None /\
  fst (lookup cfg plat pfn st) = None.
Proof.
  intros Hoff.
  unfold lookup, devm_memremap_pages, get_dev_pagemap.
  rewrite Hoff. simpl. auto.
Qed.

Lemma zone_device_compiled_out_witness :
  index st_one = [with_dev host_region 3] /\
  contains plat_4k (with_dev host_region 3) 2 = true /\
  fst (devm_memremap_pages cfg_none plat_4k 3 host_region st_one) = ERR_PTR ENXIO /\
  get_dev_pagemap cfg_none plat_4k 2 (Some (with_dev host_region 3)) st_one = None.
Proof.
  split; [reflexivity|]. split; [reflexivity|].
  destruct (zone_device_compiled_out cfg_none plat_4k 3 host_region 2
              (Some (with_dev host_region 3)) st_one eq_refl)
    as (Hreg & _ & Hget & _).
  split; [exact Hreg | exact Hget].
Defined.

(** ** Registration of a CPU-inaccessible region *)

(** C4.  A registration whose memory type is device-private and which
    supplies no fault handler is refused with a configuration error,
    whatever the other arguments, the configuration and the state; the
    registry is left as it was. *)
Theorem private_without_fault_handler_refused (cfg : kconfig)
    (plat : platform) (d : N) (p : dev_pagemap) (st : system) :
  type p = MEMORY_DEVICE_PRIVATE ->
  page_fault p = None ->
  (exists e : register_error,
     fst (devm_memremap_pages cfg plat d p st) = ERR_PTR e /\
     is_configuration_error e = true) /\
  index (snd (devm_memremap_pages cfg plat d p st)) = index st /\
  pins (snd (devm_memremap_pages cfg plat d p st)) = pins st.
Proof.
  intros Htype Hfault.
  unfold devm_memremap_pages.
  destruct (CONFIG_ZONE_DEVICE cfg).
  - unfold register.
    destruct (existsb _ (index st)).
    + split; [exists Overlap|]; auto.
    + rewrite Htype, Hfault. simpl.
      split; [exists MissingFaultHandler|]; auto.
  - simpl. split; [exists ENXIO|]; auto.
Qed.

Lemma private_without_fault_handler_refused_witness :
  fst (devm_memremap_pages cfg_all plat_4k 3
         (region MEMORY_DEVICE_PRIVATE None 65536 4096 2) st_one)
  = ERR_PTR MissingFaultHandler.
Proof.
  destruct (private_without_fault_handler_refused cfg_all plat_4k 3
              (region MEMORY_DEVICE_PRIVATE None 65536 4096 2) st_one
              eq_refl eq_refl) as ((e & He & _) & _).
  rewrite He. vm_compute in He. symmetry. exact He.
Defined.

(** ** Releasing a pin *)

(** C9.  [put_dev_pagemap] on a null handle returns with the state
    untouched; the decrement is what the call does on a non-null handle,
    and only a non-null handle can change the state or trip the fatal
    path. *)
Theorem put_dev_pagemap_null (st : system) :
  put_dev_pagemap None st = Some st /\
  (forall m : dev_pagemap,
     put_dev_pagemap (Some m) st = percpu_ref_put (ref m) st) /\
  (forall p : option dev_pagemap,
     put_dev_pagemap p st <> Some st -> exists m, p = Some m).
Proof.
  split; [reflexivity|]. split; [reflexivity|].
  intros [m|] Hne.
  - exists m. reflexivity.
  - contradiction Hne. reflexivity.
Qed.

(** ** Metadata allocator *)

Lemma padding_nonneg (plat : platform) (a : vmem_altmap) (n : Z) :
  0 <= padding plat a n.
Proof.
  unfold padding.
  apply Z.mod_pos_bound. reflexivity.
Qed.

Lemma allocate_inv (plat : platform) (a a1 : vmem_altmap) (n off : Z) :
  allocate plat a n = Some (off, a1) ->
  n <= free a - padding plat a n /\
  off = next_pfn a + padding plat a n - base_pfn a /\
  base_pfn a1 = base_pfn a /\
  reserve a1 = reserve a /\
  free a1 = free a - padding plat a n - n /\
  align a1 = align a + padding plat a n /\
  alloc a1 = alloc a + n.
Proof.
  unfold allocate.
  destruct (Z.ltb_spec (free a - padding plat a n) n) as [Hlt|Hge];
    [discriminate|].
  intros H. injection H as <- <-. simpl. repeat split; auto.
Qed.

Lemma altmap_reclaim_inv (a a2 : vmem_altmap) (m : Z) :
  altmap_reclaim a m = Some a2 ->
  m <= alloc a /\
  base_pfn a2 = base_pfn a /\
  reserve a2 = reserve a /\
  free a2 = free a + m /\
  align a2 = align a /\
  alloc a2 = alloc a - m.
Proof.
  unfold altmap_reclaim.
  destruct (Z.ltb_spec (alloc a) m) as [Hlt|Hge]; [discriminate|].
  intros H. injection H as <-. simpl. repeat split; auto.
Qed.

Lemma altmap_step_frames (cfg : kconfig) (plat : platform)
    (a : vmem_altmap) (o : altmap_op) :
  altmap_frames (altmap_step cfg plat a o) = altmap_frames a.
Proof.
  destruct o as [n|n]; simpl.
  - destruct (allocate plat a n) as [[off a1]|] eqn:Ha; [|reflexivity].
    apply allocate_inv in Ha. unfold altmap_frames. lia.
  - unfold vmem_altmap_free.
    destruct (CONFIG_ZONE_DEVICE cfg); [|reflexivity].
    destruct (altmap_reclaim a n) as [a2|] eqn:Ha; [|reflexivity].
    apply altmap_reclaim_inv in Ha. unfold altmap_frames. lia.
Qed.

Lemma altmap_step_free_nonneg (cfg : kconfig) (plat : platform)
    (a : vmem_altmap) (o : altmap_op) :
  0 <= op_count o -> 0 <= free a -> 0 <= free (altmap_step cfg plat a o).
Proof.
  intros Hn Hfree.
  destruct o as [n|n]; simpl in *.
  - destruct (allocate plat a n) as [[off a1]|] eqn:Ha; [|assumption].
    apply allocate_inv in Ha. lia.
  - unfold vmem_altmap_free.
    destruct (CONFIG_ZONE_DEVICE cfg); [|assumption].
    destruct (altmap_reclaim a n) as [a2|] eqn:Ha; [|assumption].
    apply altmap_reclaim_inv in Ha. lia.
Qed.

(** C6.  Along every sequence of allocator calls with non-negative counts,
    in either configuration, [reserve + free + align + alloc] keeps the
    value it started with, so it never exceeds the frame count of the
    backing range that bounded it at the start, and [free] never goes below
    zero. *)
Theorem altmap_frames_bounded (cfg : kconfig) (plat : platform)
    (total : Z) (ops : list altmap_op) (a : vmem_altmap) :
  altmap_frames a <= total ->
  0 <= free a ->
  Forall (fun o => 0 <= op_count o) ops ->
  altmap_frames (altmap_run cfg plat ops a) = altmap_frames a /\
  altmap_frames (altmap_run cfg plat ops a) <= total /\
  0 <= free (altmap_run cfg plat ops a).
Proof.
  intros Htotal Hfree Hops. revert a Htotal Hfree.
  unfold altmap_run.
  induction Hops as [|o ops Ho Hops IH]; intros a Htotal Hfree; simpl.
  - auto.
  - destruct (IH (altmap_step cfg plat a o)) as (Heq & Hle & Hnn).
    + rewrite altmap_step_frames. exact Htotal.
    + apply altmap_step_free_nonneg; assumption.
    + rewrite altmap_step_frames in Heq. auto.
Qed.

Lemma altmap_frames_bounded_witness :
  altmap_frames (altmap_run cfg_all plat_4k
                   [Allocate 2; Allocate 3; Free 3; Allocate 20; Free 1]
                   altmap_odd) <= 16 /\
  0 <= free (altmap_run cfg_all plat_4k
               [Allocate 2; Allocate 3; Free 3; Allocate 20; Free 1]
               altmap_odd).
Proof.
  destruct (altmap_frames_bounded cfg_all plat_4k 16
              [Allocate 2; Allocate 3; Free 3; Allocate 20; Free 1]
              altmap_odd) as (_ & Hle & Hnn).
  - unfold altmap_frames. simpl. lia.
  - simpl. lia.
  - repeat constructor; simpl; lia.
  - split; [exact Hle | exact Hnn].
Defined.

(** ** Region registry *)

Lemma res_overlaps_refl (r : resource) : res_overlaps r r = true.
Proof.
  unfold res_overlaps, res_end.
  apply andb_true_iff. split; apply Z.ltb_lt; lia.
Qed.

Lemma res_contains_overlaps (r1 r2 : resource) (phys : Z) :
  res_contains r1 phys = true ->
  res_contains r2 phys = true ->
  res_overlaps r1 r2 = true.
Proof.
  unfold res_contains, res_overlaps.
  rewrite !andb_true_iff, !Z.leb_le, !Z.ltb_lt. lia.
Qed.

Lemma find_dev_pagemap_sound (phys : Z) (l : list dev_pagemap) (p : dev_pagemap) :
  find_dev_pagemap phys l = Some p ->
  In p l /\ res_contains (res p) phys = true.
Proof.
  induction l as [|q l IH]; simpl; [discriminate|].
  destruct (Z.ltb_spec phys (res_start (res q))) as [Hbefore|Hfrom];
    [discriminate|].
  destruct (Z.ltb_spec phys (res_end (res q))) as [Hin|Hpast].
  - intros H. injection H as <-. split; [left; reflexivity|].
    unfold res_contains. apply andb_true_iff.
    split; [apply Z.leb_le | apply Z.ltb_lt]; assumption.
  - intros H. apply IH in H. destruct H as [Hl Hc]. split; [right|]; assumption.
Qed.

Lemma find_dev_pagemap_complete (phys : Z) (l : list dev_pagemap) (p : dev_pagemap) :
  StronglySorted by_start l ->
  (forall a b, In a l -> In b l -> a <> b -> res_overlaps (res a) (res b) = false) ->
  In p l ->
  res_contains (res p) phys = true ->
  find_dev_pagemap phys l = Some p.
Proof.
  intros Hsorted. induction Hsorted as [|q l Hsorted IH Hq];
    intros Hdisj Hin Hp; [destruct Hin|].
  simpl.
  assert (Hp' := Hp). unfold res_contains in Hp'.
  apply andb_true_iff in Hp'. destruct Hp' as [Hfrom Hto].
  apply Z.leb_le in Hfrom. apply Z.ltb_lt in Hto.
  assert (Hqp : res_start (res q) <= res_start (res p)).
  { destruct Hin as [<-|Hin]; [lia|].
    rewrite List.Forall_forall in Hq. apply Hq. exact Hin. }
  destruct (Z.ltb_spec phys (res_start (res q))) as [Hbefore|_]; [lia|].
  destruct (Z.ltb_spec phys (res_end (res q))) as [Hinq|Hpast].
  - destruct (decide (q = p)) as [->|Hne]; [reflexivity|].
    assert (Hov : res_overlaps (res q) (res p) = true).
    { apply res_contains_overlaps with phys; [|exact Hp].
      unfold res_contains. apply andb_true_iff.
      split; [apply Z.leb_le; lia | apply Z.ltb_lt; exact Hinq]. }
    rewrite Hdisj in Hov; [discriminate| left; reflexivity | exact Hin | exact Hne].
  - destruct Hin as [<-|Hin]; [lia|].
    apply IH; [|exact Hin|exact Hp].
    intros a b Ha Hb. apply Hdisj; right; assumption.
Qed.

Lemma find_dev_pagemap_none (phys : Z) (l : list dev_pagemap) :
  (forall p, In p l -> res_contains (res p) phys = false) ->
  find_dev_pagemap phys l = None.
Proof.
  intros Hnone.
  destruct (find_dev_pagemap phys l) as [p|] eqn:Hfind; [|reflexivity].
  apply find_dev_pagemap_sound in Hfind. destruct Hfind as [Hin Hc].
  rewrite Hnone in Hc by exact Hin. discriminate.
Qed.

Lemma insert_region_In (p x : dev_pagemap) (l : list dev_pagemap) :
  In x (insert_region p l) <-> x = p \/ In x l.
Proof.
  induction l as [|q l IH]; simpl.
  - intuition.
  - destruct (res_start (res p) <=? res_start (res q)); simpl.
    + intuition.
    + rewrite IH. intuition.
Qed.

Lemma insert_region_sorted (p : dev_pagemap) (l : list dev_pagemap) :
  StronglySorted by_start l -> StronglySorted by_start (insert_region p l).
Proof.
  intros Hsorted. induction Hsorted as [|q l Hsorted IH Hq]; simpl.
  - constructor; constructor.
  - destruct (Z.leb_spec (res_start (res p)) (res_start (res q))) as [Hle|Hgt].
    + constructor; [constructor; assumption|].
      constructor; [exact Hle|].
      rewrite List.Forall_forall in *. intros x Hx.
      unfold by_start in *. specialize (Hq x Hx). lia.
    + constructor; [exact IH|].
      rewrite List.Forall_forall in *. intros x Hx.
      apply insert_region_In in Hx. destruct Hx as [->|Hx].
      * unfold by_start. lia.
      * apply Hq. exact Hx.
Qed.

Lemma insert_region_nodup (p : dev_pagemap) (l : list dev_pagemap) :
  ~ In p l -> List.NoDup l -> List.NoDup (insert_region p l).
Proof.
  intros Hfresh Hnodup. induction Hnodup as [|q l Hq Hnodup IH]; simpl.
  - constructor; [exact Hfresh|constructor].
  - destruct (res_start (res p) <=? res_start (res q)).
    + constructor; [exact Hfresh|]. constructor; assumption.
    + constructor.
      * rewrite insert_region_In. intros [->|Hin].
        -- apply Hfresh. left. reflexivity.
        -- contradiction.
      * apply IH. intros Hin. apply Hfresh. right. exact Hin.
Qed.

Lemma filter_sorted (f : dev_pagemap -> bool) (l : list dev_pagemap) :
  StronglySorted by_start l -> StronglySorted by_start (List.filter f l).
Proof.
  intros Hsorted. induction Hsorted as [|q l Hsorted IH Hq]; simpl.
  - constructor.
  - destruct (f q); [|exact IH].
    constructor; [exact IH|].
    rewrite List.Forall_forall in *. intros x Hx.
    apply filter_In in Hx. apply Hq. tauto.
Qed.

(** *** The invariant holds in every reachable state *)

Section Reachable.

Variable cfg : kconfig.
Variable plat : platform.

Lemma boot_ok : system_ok cfg boot.
Proof.
  constructor; simpl.
  - constructor.
  - constructor.
  - intros p q [].
  - discriminate.
  - intros p [].
  - intros k c H. rewrite lookup_empty in H. discriminate.
  - reflexivity.
Qed.

Lemma materialize_same_region (p h : dev_pagemap) :
  materialize plat p = Some h -> res h = res p /\ ref h = ref p.
Proof.
  unfold materialize.
  destruct (altmap_valid p).
  - destruct (allocate plat (altmap p) _) as [[off a']|]; [|discriminate].
    intros H. injection H as <-. split; reflexivity.
  - intros H. injection H as <-. split; reflexivity.
Qed.

Lemma register_inv (d : N) (p h : dev_pagemap) (st : system) :
  fst (register plat d p st) = Registered h ->
  res h = res p /\ ref h = ref p /\
  (forall q, In q (index st) -> res_overlaps (res h) (res q) = false) /\
  snd (register plat d p st) =
    {| index := insert_region h (index st); cache := cache st;
       pins := pin_issue (ref h) (pins st); teardowns := teardowns st;
       unregistered := unregistered st; warned := warned st |}.
Proof.
  unfold register.
  destruct (existsb _ (index st)) eqn:Hov; [discriminate|].
  destruct (cpu_inaccessible (type p) && _); [discriminate|].
  destruct (materialize plat (with_dev p d)) as [h'|] eqn:Hm; [|discriminate].
  simpl. intros H. injection H as ->.
  apply materialize_same_region in Hm. destruct Hm as [Hres Href].
  simpl in Hres, Href.
  split; [exact Hres|]. split; [exact Href|]. split; [|reflexivity].
  intros q Hq. rewrite Hres.
  destruct (res_overlaps (res p) (res q)) eqn:Hpq; [|reflexivity].
  assert (Hex : existsb (fun q => res_overlaps (res p) (res q)) (index st) = true).
  { apply existsb_exists. exists q. split; assumption. }
  rewrite Hex in Hov. discriminate.
Qed.

Lemma register_refused (d : N) (p : dev_pagemap)
    (st : system) (e : register_error) :
  fst (register plat d p st) = ERR_PTR e -> snd (register plat d p st) = st.
Proof.
  unfold register.
  destruct (existsb _ (index st)); [reflexivity|].
  destruct (cpu_inaccessible (type p) && _); [reflexivity|].
  destruct (materialize plat (with_dev p d)); [discriminate|reflexivity].
Qed.

Lemma pin_count_set_pin (p : dev_pagemap) (k : N) (c : Z) (st : system) :
  pin_count p (set_pin k c st) = if decide (k = ref p) then c else pin_count p st.
Proof.
  unfold pin_count, set_pin. simpl.
  rewrite lookup_insert. destruct (decide (k = ref p)); reflexivity.
Qed.

Lemma register_ok (d : N)
    (p : dev_pagemap) (st : system) :
  CONFIG_ZONE_DEVICE cfg = true ->
  system_ok cfg st -> system_ok cfg (snd (register plat d p st)).
Proof.
  intros Hon Hok.
  destruct (fst (register plat d p st)) as [h|e] eqn:Hreg.
  2:{ rewrite (register_refused _ _ _ _ Hreg). exact Hok. }
  apply register_inv in Hreg.
  destruct Hreg as (Hres & Href & Hfree & ->).
  destruct Hok as [Hsorted Hnodup Hdisj Hcache Hpinned Hcounts _].
  assert (Hfresh : ~ In h (index st)).
  { intros Hin. specialize (Hfree h Hin).
    rewrite res_overlaps_refl in Hfree. discriminate. }
  constructor; simpl.
  - apply insert_region_sorted. exact Hsorted.
  - apply insert_region_nodup; assumption.
  - intros a b Ha Hb Hne.
    apply insert_region_In in Ha. apply insert_region_In in Hb.
    destruct Ha as [->|Ha], Hb as [->|Hb].
    + contradiction.
    + apply Hfree. exact Hb.
    + specialize (Hfree a Ha).
      unfold res_overlaps in *. rewrite andb_comm. exact Hfree.
    + apply Hdisj; assumption.
  - intros c Hc. apply insert_region_In. right. apply Hcache. exact Hc.
  - intros q Hq. unfold pin_count, pin_issue. simpl.
    rewrite lookup_insert. destruct (decide (ref h = ref q)) as [Heq|Hne].
    + simpl. destruct (pins st !! ref h) as [c|] eqn:Hc; simpl; [|lia].
      specialize (Hcounts _ _ Hc). lia.
    + apply insert_region_In in Hq. destruct Hq as [->|Hq]; [contradiction|].
      apply Hpinned. exact Hq.
  - intros k c. unfold pin_issue. rewrite lookup_insert.
    destruct (decide (ref h = k)) as [Heq|Hne].
    + intros H. injection H as <-.
      destruct (pins st !! ref h) as [c|] eqn:Hc; simpl; [|lia].
      specialize (Hcounts _ _ Hc). lia.
    + apply Hcounts.
  - rewrite Hon. discriminate.
Qed.

Lemma devm_memremap_pages_ok (d : N)
    (p : dev_pagemap) (st : system) :
  system_ok cfg st -> system_ok cfg (snd (devm_memremap_pages cfg plat d p st)).
Proof.
  intros Hok. unfold devm_memremap_pages.
  destruct (CONFIG_ZONE_DEVICE cfg) eqn:Hcfg.
  - apply register_ok; assumption.
  - destruct Hok. constructor; simpl; auto.
Qed.

Lemma get_dev_pagemap_sound (pfn : Z)
    (cached : option dev_pagemap) (st : system) (p : dev_pagemap) :
  (forall c, cached = Some c -> In c (index st)) ->
  get_dev_pagemap cfg plat pfn cached st = Some p ->
  In p (index st) /\ contains plat p pfn = true.
Proof.
  intros Hlive. unfold get_dev_pagemap.
  destruct (CONFIG_ZONE_DEVICE cfg); [|discriminate].
  destruct cached as [c|].
  - destruct (contains plat c pfn) eqn:Hin.
    + intros H. injection H as <-. split; [|exact Hin].
      apply Hlive. reflexivity.
    + apply find_dev_pagemap_sound.
  - apply find_dev_pagemap_sound.
Qed.

Lemma lookup_fst (pfn : Z) (st : system) :
  fst (lookup cfg plat pfn st) = get_dev_pagemap cfg plat pfn (cache st) st.
Proof.
  unfold lookup.
  destruct (get_dev_pagemap cfg plat pfn (cache st) st); reflexivity.
Qed.

Lemma lookup_ok (pfn : Z) (st : system) :
  system_ok cfg st -> system_ok cfg (snd (lookup cfg plat pfn st)).
Proof.
  intros Hok. unfold lookup.
  destruct (get_dev_pagemap cfg plat pfn (cache st) st) as [p|] eqn:Hget;
    [|exact Hok].
  apply get_dev_pagemap_sound in Hget; [|apply Hok].
  destruct Hok. constructor; simpl; auto.
  intros c H. injection H as <-. tauto.
Qed.

Lemma lookup_index (pfn : Z) (st : system) :
  index (snd (lookup cfg plat pfn st)) = index st.
Proof.
  unfold lookup.
  destruct (get_dev_pagemap cfg plat pfn (cache st) st); reflexivity.
Qed.

Lemma set_pin_ok (k : N) (c : Z) (st : system) :
  0 < c -> system_ok cfg st -> system_ok cfg (set_pin k c st).
Proof.
  intros Hc Hok. destruct Hok as [Hsorted Hnodup Hdisj Hcache Hpinned Hcounts Hcfg].
  constructor; simpl; auto.
  - intros p Hp. rewrite pin_count_set_pin.
    destruct (decide (k = ref p)); [exact Hc|]. apply Hpinned. exact Hp.
  - intros k' c'. rewrite lookup_insert.
    destruct (decide (k = k')); [|apply Hcounts].
    intros H. injection H as <-. lia.
Qed.

Lemma unregister_all_index (ps : list dev_pagemap) (st : system) (q : dev_pagemap) :
  In q (index (unregister_all ps st)) <-> In q (index st) /\ ~ In q ps.
Proof.
  revert st. induction ps as [|p ps IH]; intros st; simpl.
  - tauto.
  - rewrite IH. simpl. rewrite filter_In, negb_true_iff, bool_decide_eq_false.
    split.
    + intros [[Hin Hne] Hps]. split; [exact Hin|].
      intros [Heq|Hin']; [apply Hne; symmetry; exact Heq | contradiction].
    + intros [Hin Hnot]. split; [split; [exact Hin|]|].
      * intros Heq. apply Hnot. left. symmetry. exact Heq.
      * intros Hin'. apply Hnot. right. exact Hin'.
Qed.

Lemma unregister_all_cache (ps : list dev_pagemap) (st : system) (c : dev_pagemap) :
  cache (unregister_all ps st) = Some c -> cache st = Some c /\ ~ In c ps.
Proof.
  revert st. induction ps as [|p ps IH]; intros st; simpl.
  - tauto.
  - intros H. apply IH in H. destruct H as [Hc Hps]. simpl in Hc.
    destruct (bool_decide (cache st = Some p)) eqn:Hp; [discriminate|].
    apply bool_decide_eq_false in Hp.
    split; [exact Hc|].
    intros [Heq|Hin]; [|contradiction].
    apply Hp. rewrite Hc, Heq. reflexivity.
Qed.

Lemma unregister_all_rest (ps : list dev_pagemap) (st : system) :
  pins (unregister_all ps st) = pins st /\
  teardowns (unregister_all ps st) = teardowns st /\
  unregistered (unregister_all ps st) = unregistered st ++ ps.
Proof.
  revert st. induction ps as [|p ps IH]; intros st; simpl.
  - rewrite app_nil_r. auto.
  - destruct (IH (unregister p st)) as (-> & -> & ->). simpl.
    rewrite <- app_assoc. auto.
Qed.

Lemma unregister_all_sorted (ps : list dev_pagemap) (st : system) :
  StronglySorted by_start (index st) ->
  StronglySorted by_start (index (unregister_all ps st)).
Proof.
  revert st. induction ps as [|p ps IH]; intros st Hsorted; simpl.
  - exact Hsorted.
  - apply IH. simpl. apply filter_sorted. exact Hsorted.
Qed.

Lemma unregister_all_nodup (ps : list dev_pagemap) (st : system) :
  List.NoDup (index st) -> List.NoDup (index (unregister_all ps st)).
Proof.
  revert st. induction ps as [|p ps IH]; intros st Hnodup; simpl.
  - exact Hnodup.
  - apply IH. simpl. apply List.NoDup_filter. exact Hnodup.
Qed.

Lemma pinned_by_In (k : N) (l : list dev_pagemap) (q : dev_pagemap) :
  In q (pinned_by k l) <-> In q l /\ ref q = k.
Proof.
  unfold pinned_by. rewrite filter_In, bool_decide_eq_true. reflexivity.
Qed.

Lemma teardown_index (k : N) (st : system) (q : dev_pagemap) :
  In q (index (teardown k st)) <-> In q (index st) /\ ref q <> k.
Proof.
  unfold teardown. simpl. rewrite unregister_all_index, pinned_by_In. tauto.
Qed.

Lemma teardown_ok (k : N) (st : system) :
  system_ok cfg st -> system_ok cfg (teardown k st).
Proof.
  intros Hok.
  destruct Hok as [Hsorted Hnodup Hdisj Hcache Hpinned Hcounts Hcfg].
  constructor.
  - apply unregister_all_sorted. exact Hsorted.
  - apply unregister_all_nodup. exact Hnodup.
  - intros p q Hp Hq. apply teardown_index in Hp. apply teardown_index in Hq.
    apply Hdisj; tauto.
  - intros c Hc. simpl in Hc. apply unregister_all_cache in Hc.
    destruct Hc as [Hc Hnot]. apply teardown_index.
    specialize (Hcache c Hc). split; [exact Hcache|].
    intros Href. apply Hnot. apply pinned_by_In. tauto.
  - intros p Hp. apply teardown_index in Hp. destruct Hp as [Hp Hne].
    unfold pin_count, teardown. simpl.
    rewrite lookup_insert_ne by congruence.
    destruct (unregister_all_rest (pinned_by k (index st)) st) as (-> & _).
    apply Hpinned. exact Hp.
  - intros k' c. unfold teardown. simpl. rewrite lookup_insert.
    destruct (decide (k = k')).
    + intros H. injection H as <-. lia.
    + destruct (unregister_all_rest (pinned_by k (index st)) st) as (-> & _).
      apply Hcounts.
  - intros Hoff. specialize (Hcfg Hoff).
    destruct (index (teardown k st)) as [|q l] eqn:Hidx; [reflexivity|].
    assert (Hq : In q (index (teardown k st))) by (rewrite Hidx; left; reflexivity).
    apply teardown_index in Hq. rewrite Hcfg in Hq. destruct Hq as [[] _].
Qed.

Lemma pin_count_nonneg (p : dev_pagemap) (st : system) :
  system_ok cfg st -> 0 <= pin_count p st.
Proof.
  intros Hok. unfold pin_count.
  destruct (pins st !! ref p) as [c|] eqn:Hc; simpl; [|lia].
  apply (ok_counts _ _ Hok _ _ Hc).
Qed.

Lemma percpu_ref_get_ok (k : N) (st : system) :
  system_ok cfg st -> system_ok cfg (percpu_ref_get k st).
Proof.
  intros Hok. unfold percpu_ref_get. apply set_pin_ok; [|exact Hok].
  destruct (pins st !! k) as [c|] eqn:Hc; simpl; [|lia].
  pose proof (ok_counts _ _ Hok _ _ Hc). lia.
Qed.

Lemma percpu_ref_put_inv (k : N) (st st' : system) :
  percpu_ref_put k st = Some st' ->
  exists c, pins st !! k = Some c /\ 0 < c /\
            (c = 1 /\ st' = teardown k st \/
             1 < c /\ st' = set_pin k (c - 1) st).
Proof.
  unfold percpu_ref_put.
  destruct (pins st !! k) as [c|]; [|discriminate].
  destruct (Z.ltb_spec 0 c) as [Hpos|_]; [|discriminate].
  destruct (Z.eqb_spec (c - 1) 0) as [Hlast|Hmore];
    intros H; injection H as <-; exists c.
  - split; [reflexivity|]. split; [assumption|]. left. split; [lia|reflexivity].
  - split; [reflexivity|]. split; [assumption|]. right. split; [lia|reflexivity].
Qed.

Lemma do_call_ok (c : call) (st st' : system) :
  system_ok cfg st -> do_call cfg plat c st = Some st' -> system_ok cfg st'.
Proof.
  intros Hok. destruct c as [d p|pfn|p|[p|]]; simpl.
  - intros H. injection H as <-. apply devm_memremap_pages_ok. exact Hok.
  - intros H. injection H as <-. apply lookup_ok. exact Hok.
  - intros H. injection H as <-. apply percpu_ref_get_ok. exact Hok.
  - intros H. apply percpu_ref_put_inv in H.
    destruct H as (c & _ & Hc & [[_ ->]|[Hc' ->]]).
    + apply teardown_ok. exact Hok.
    + apply set_pin_ok; [lia|exact Hok].
  - intros H. injection H as <-. exact Hok.
Qed.

Lemma run_ok (cs : list call) (st st' : system) :
  system_ok cfg st -> run cfg plat cs st = Some st' -> system_ok cfg st'.
Proof.
  revert st. induction cs as [|c cs IH]; intros st Hok; simpl.
  - intros H. injection H as <-. exact Hok.
  - destruct (do_call cfg plat c st) as [st1|] eqn:Hc; [|discriminate].
    apply IH. eapply do_call_ok; eassumption.
Qed.

(** Calls other than registration add nothing to the index. *)
Lemma do_call_index (c : call)
    (st st' : system) (q : dev_pagemap) :
  is_register c = false ->
  do_call cfg plat c st = Some st' ->
  In q (index st') -> In q (index st).
Proof.
  destruct c as [d p|pfn|p|[p|]]; simpl; [discriminate| | | |]; intros _.
  - intros H. injection H as <-. rewrite lookup_index. auto.
  - intros H. injection H as <-. auto.
  - intros H. apply percpu_ref_put_inv in H.
    destruct H as (c & _ & _ & [[_ ->]|[_ ->]]); [|auto].
    intros Hq. apply teardown_index in Hq. tauto.
  - intros H. injection H as <-. auto.
Qed.

Lemma run_index (cs : list call)
    (st st' : system) (q : dev_pagemap) :
  forallb (fun c => negb (is_register c)) cs = true ->
  run cfg plat cs st = Some st' ->
  In q (index st') -> In q (index st).
Proof.
  revert st. induction cs as [|c cs IH]; intros st; simpl.
  - intros _ H. injection H as <-. auto.
  - rewrite andb_true_iff, negb_true_iff. intros [Hc Hcs].
    destruct (do_call cfg plat c st) as [st1|] eqn:Hstep; [|discriminate].
    intros Hrun Hq. eapply do_call_index; [exact Hc|exact Hstep|].
    eapply IH; eassumption.
Qed.

(** Lookup. *)

Lemma get_dev_pagemap_found (pfn : Z)
    (cached : option dev_pagemap) (st : system) (p : dev_pagemap) :
  system_ok cfg st ->
  (forall c, cached = Some c -> In c (index st)) ->
  In p (index st) ->
  contains plat p pfn = true ->
  get_dev_pagemap cfg plat pfn cached st = Some p.
Proof.
  intros Hok Hlive Hin Hp.
  assert (Hon : CONFIG_ZONE_DEVICE cfg = true).
  { destruct (CONFIG_ZONE_DEVICE cfg) eqn:Hcfg; [reflexivity|].
    rewrite (ok_config _ _ Hok Hcfg) in Hin. destruct Hin. }
  assert (Hfind : find_dev_pagemap (PFN_PHYS plat pfn) (index st) = Some p).
  { apply find_dev_pagemap_complete; [apply Hok|apply Hok|exact Hin|exact Hp]. }
  unfold get_dev_pagemap. rewrite Hon.
  destruct cached as [c|]; [|exact Hfind].
  destruct (contains plat c pfn) eqn:Hcin; [|exact Hfind].
  f_equal.
  destruct (decide (c = p)) as [->|Hne]; [reflexivity|].
  assert (Hov : res_overlaps (res c) (res p) = true)
    by (eapply res_contains_overlaps; eassumption).
  rewrite (ok_disjoint _ _ Hok) in Hov;
    [discriminate | apply Hlive; reflexivity | exact Hin | exact Hne].
Qed.

Lemma get_dev_pagemap_not_found (pfn : Z)
    (cached : option dev_pagemap) (st : system) :
  (forall c, cached = Some c -> In c (index st)) ->
  (forall p, In p (index st) -> contains plat p pfn = false) ->
  get_dev_pagemap cfg plat pfn cached st = None.
Proof.
  intros Hlive Hnone.
  destruct (get_dev_pagemap cfg plat pfn cached st) as [p|] eqn:Hget;
    [|reflexivity].
  apply get_dev_pagemap_sound in Hget; [|exact Hlive].
  destruct Hget as [Hin Hp]. rewrite Hnone in Hp by exact Hin. discriminate.
Qed.

Lemma lookup_not_found (pfn : Z) (st : system) :
  system_ok cfg st ->
  (forall p, In p (index st) -> contains plat p pfn = false) ->
  fst (lookup cfg plat pfn st) = None.
Proof.
  intros Hok Hnone. rewrite lookup_fst.
  apply get_dev_pagemap_not_found; [apply Hok|exact Hnone].
Qed.

End Reachable.



(** ** Lifecycle *)

Lemma teardown_pin (k : N) (st : system) : pins (teardown k st) !! k = Some 0.
Proof. unfold teardown. simpl. apply lookup_insert_eq. Qed.

Lemma pin_count_lookup (r : dev_pagemap) (st : system) (c : Z) :
  pins st !! ref r = Some c -> pin_count r st = c.
Proof. unfold pin_count. intros ->. reflexivity. Qed.

Lemma pin_count_set_own (r : dev_pagemap) (c : Z) (st : system) :
  pin_count r (set_pin (ref r) c st) = c.
Proof.
  rewrite pin_count_set_pin.
  destruct (decide (ref r = ref r)); [reflexivity|contradiction].
Qed.

(** A release that finds the pin held goes through: it tears down when it
    takes the last pin and only lowers the count otherwise. *)
Lemma percpu_ref_put_held (r : dev_pagemap) (st : system) :
  0 < pin_count r st ->
  percpu_ref_put (ref r) st
  = Some (if pin_count r st =? 1 then teardown (ref r) st
          else set_pin (ref r) (pin_count r st - 1) st).
Proof.
  unfold pin_count, percpu_ref_put.
  destruct (pins st !! ref r) as [c|]; simpl; [|lia].
  intros Hpos.
  destruct (Z.ltb_spec 0 c) as [_|]; [|lia].
  destruct (Z.eqb_spec (c - 1) 0), (Z.eqb_spec c 1); try lia; reflexivity.
Qed.

Lemma pinned_by_none (k : N) (l : list dev_pagemap) :
  (forall q, In q l -> ref q <> k) -> pinned_by k l = [].
Proof.
  intros Hnone. induction l as [|q l IH]; [reflexivity|].
  unfold pinned_by. simpl.
  rewrite bool_decide_eq_false_2 by (apply Hnone; left; reflexivity).
  apply IH. intros q' Hq'. apply Hnone. right. exact Hq'.
Qed.

Lemma count_after_calls (tr : list pin_call) :
  forall c : Z,
    count_after c tr = c + count_calls Acquire tr - count_calls Release tr.
Proof.
  induction tr as [|[] tr IH]; intros c; simpl; [lia| |]; rewrite IH; lia.
Qed.

Lemma no_double_release_app (tr1 tr2 : list pin_call) :
  forall c : Z,
    no_double_release c (tr1 ++ tr2) = true ->
    no_double_release c tr1 = true.
Proof.
  induction tr1 as [|[] tr1 IH]; intros c; simpl; [reflexivity|apply IH|].
  rewrite !andb_true_iff. intros [Hc Hrest]. split; [exact Hc|].
  apply IH. exact Hrest.
Qed.

(** A pin that is held and ends at zero has gone from one to zero at least
    once. *)
Lemma drained_pin_transitions (tr : list pin_call) :
  forall c : Z,
    0 < c ->
    no_double_release c tr = true ->
    count_after c tr = 0 ->
    (1 <= zero_transitions c tr)%nat.
Proof.
  induction tr as [|[] tr IH]; intros c Hpos; simpl.
  - intros _ Hend. lia.
  - apply IH. lia.
  - rewrite andb_true_iff. intros [_ Hrest] Hend.
    destruct (Z.eqb_spec c 1) as [->|Hne]; [lia|].
    simpl. apply IH; [lia|exact Hrest|exact Hend].
Qed.

(** What a sequence of acquires and releases on a region's pin does, when
    no release finds the count at zero: it runs to the end, the count is
    the one that counting gives, teardown has run once for each time the
    count went from one to zero, and the regions of the pin were
    unregistered by the first of these runs. *)
Lemma pin_calls_run (cfg : kconfig) (plat : platform) (r : dev_pagemap)
    (tr : list pin_call) :
  forall st : system,
    system_ok cfg st ->
    no_double_release (pin_count r st) tr = true ->
    exists st' : system,
      run cfg plat (pin_calls r tr) st = Some st' /\
      system_ok cfg st' /\
      pin_count r st' = count_after (pin_count r st) tr /\
      teardowns st'
      = teardowns st ++ repeat (ref r) (zero_transitions (pin_count r st) tr) /\
      (zero_transitions (pin_count r st) tr = 0%nat ->
         index st' = index st /\ unregistered st' = unregistered st) /\
      ((0 < zero_transitions (pin_count r st) tr)%nat ->
         (forall q, In q (index st') <-> In q (index st) /\ ref q <> ref r) /\
         unregistered st' = unregistered st ++ pinned_by (ref r) (index st)).
Proof.
  induction tr as [|c tr IH]; intros st Hok Hndr.
  - exists st. simpl. rewrite app_nil_r.
    split; [reflexivity|]. split; [exact Hok|]. split; [reflexivity|].
    split; [reflexivity|]. split; [auto|]. intros Habs. lia.
  - destruct c.
    + simpl in Hndr.
      destruct (IH (acquire r st)) as (st' & Hrun & Hok' & Hcount & Htd & Hz & Hnz).
      * apply percpu_ref_get_ok. exact Hok.
      * unfold acquire, percpu_ref_get. rewrite pin_count_set_own. exact Hndr.
      * unfold acquire, percpu_ref_get in Hcount, Htd, Hz, Hnz.
        rewrite pin_count_set_own in Hcount, Htd, Hz, Hnz.
        exists st'. simpl. auto 10.
    + simpl in Hndr. apply andb_true_iff in Hndr.
      destruct Hndr as [Hheld Hndr]. apply Z.ltb_lt in Hheld.
      simpl. rewrite (percpu_ref_put_held r st Hheld).
      destruct (Z.eqb_spec (pin_count r st) 1) as [Hone|Hmore].
      * rewrite Hone in *.
        assert (Hdead : pin_count (r) (teardown (ref r) st) = 0)
          by apply pin_count_lookup, teardown_pin.
        destruct (IH (teardown (ref r) st))
          as (st' & Hrun & Hok' & Hcount & Htd & Hz & Hnz).
        { apply teardown_ok. exact Hok. }
        { rewrite Hdead. exact Hndr. }
        rewrite Hdead in Hcount, Htd, Hz, Hnz.
        destruct (unregister_all_rest (pinned_by (ref r) (index st)) st)
          as (_ & Htd1 & Hun1).
        exists st'. split; [exact Hrun|]. split; [exact Hok'|].
        split; [exact Hcount|].
        split.
        { rewrite Htd. unfold teardown at 1. simpl.
          rewrite Htd1, <- app_assoc. reflexivity. }
        split; [intros Habs; discriminate Habs|].
        intros _.
        destruct (zero_transitions 0 tr) as [|n] eqn:Hzt.
        -- destruct (Hz eq_refl) as [Hidx Hun].
           split.
           ++ intros q. rewrite Hidx. apply teardown_index.
           ++ rewrite Hun. unfold teardown. simpl. exact Hun1.
        -- destruct (Hnz ltac:(lia)) as [Hidx Hun].
           split.
           ++ intros q. rewrite Hidx, teardown_index. tauto.
           ++ rewrite Hun.
              rewrite (pinned_by_none (ref r) (index (teardown (ref r) st))).
              ** rewrite app_nil_r. unfold teardown. simpl. exact Hun1.
              ** intros q Hq. apply teardown_index in Hq. tauto.
      * destruct (IH (set_pin (ref r) (pin_count r st - 1) st))
          as (st' & Hrun & Hok' & Hcount & Htd & Hz & Hnz).
        { apply set_pin_ok; [lia|exact Hok]. }
        { rewrite pin_count_set_own. exact Hndr. }
        rewrite pin_count_set_own in Hcount, Htd, Hz, Hnz.
        exists st'. simpl. auto 10.
Qed.


Lemma count_occ_repeat_N (l : list N) (k : N) (n : nat) :
  count_occ N.eq_dec (l ++ repeat k n) k = (count_occ N.eq_dec l k + n)%nat.
Proof.
  rewrite count_occ_app. f_equal.
  induction n as [|n IH]; simpl; [reflexivity|].
  destruct (N.eq_dec k k); [rewrite IH; reflexivity|contradiction].
Qed.



(** ** Frame release path *)

Lemma refcount_of_insert (pfn pfn0 c : Z) (ft ft1 : frame_table) :
  refcounts ft1 = <[pfn0 := c]> (refcounts ft) ->
  refcount_of pfn ft1 = if bool_decide (pfn0 = pfn) then c else refcount_of pfn ft.
Proof.
  unfold refcount_of. intros ->.
  rewrite lookup_insert. destruct (decide (pfn0 = pfn)) as [Heq|Hne].
  - rewrite bool_decide_eq_true_2 by exact Heq. reflexivity.
  - rewrite bool_decide_eq_false_2 by exact Hne. reflexivity.
Qed.

Lemma frame_ready_insert (p pfn0 c c0 : Z) (ft ft1 : frame_table) :
  frames ft1 = frames ft ->
  refcounts ft !! pfn0 = Some c0 ->
  refcounts ft1 = <[pfn0 := c]> (refcounts ft) ->
  frame_ready ft1 p = frame_ready ft p.
Proof.
  intros Hfr Hc0 Hrc. unfold frame_ready. rewrite Hfr, Hrc, lookup_insert.
  destruct (decide (pfn0 = p)) as [<-|_]; [rewrite Hc0|]; reflexivity.
Qed.

Lemma free_calls_app (pfn : Z) (ft : frame_table) (fc : free_call) :
  free_calls pfn {| frames := frames ft; refcounts := refcounts ft;
                    freed := freed ft ++ [fc] |}
  = free_calls pfn ft ++ (if bool_decide (fc_pfn fc = pfn) then [fc] else []).
Proof.
  unfold free_calls. simpl. rewrite List.filter_app. simpl.
  destruct (bool_decide (fc_pfn fc = pfn)); reflexivity.
Qed.

(** One call on a ready frame: it goes through, the frame's count moves by
    one, and [page_free] is called exactly when a device-backed frame goes
    from 2 to 1. *)
Lemma frame_step_ready (c : frame_call) (ft : frame_table) :
  frame_ready ft (call_frame c) = true ->
  exists ft1 : frame_table,
    frame_step c ft = Some ft1 /\
    frames ft1 = frames ft /\
    (forall p, frame_ready ft1 p = frame_ready ft p) /\
    (forall pfn,
       refcount_of pfn ft1
       = refcount_after pfn (refcount_of pfn ft) [c]) /\
    (forall pfn, device_backed pfn ft = true ->
       exists new : list free_call,
         free_calls pfn ft1 = free_calls pfn ft ++ new /\
         length new = falls_to_one pfn (refcount_of pfn ft) [c] /\
         Forall (owner_call ft) new).
Proof.
  unfold frame_ready. destruct c as [pfn0|pfn0]; simpl.
  - unfold get_page.
    destruct (frames ft !! pfn0) as [pg|] eqn:Hpg; [|discriminate].
    destruct (refcounts ft !! pfn0) as [c|] eqn:Hc; [|discriminate].
    intros _. eexists. split; [reflexivity|].
    split; [reflexivity|].
    split; [intros p; apply (frame_ready_insert p pfn0 (c + 1) c ft); auto|].
    split.
    + intros pfn. rewrite (refcount_of_insert pfn pfn0 (c + 1) ft) by reflexivity.
      destruct (bool_decide (pfn0 = pfn)) eqn:Heq; [|reflexivity].
      apply bool_decide_eq_true in Heq. subst pfn.
      unfold refcount_of. rewrite Hc. reflexivity.
    + intros pfn _. exists []. rewrite app_nil_r.
      repeat split. constructor.
  - unfold put_page.
    destruct (frames ft !! pfn0) as [pg|] eqn:Hpg; [|discriminate].
    destruct (refcounts ft !! pfn0) as [c|] eqn:Hc; [|discriminate].
    assert (Hrc : refcount_of pfn0 ft = c)
      by (unfold refcount_of; rewrite Hc; reflexivity).
    assert (Hcount : forall (ft1 : frame_table) (pfn : Z),
               refcounts ft1 = <[pfn0 := c - 1]> (refcounts ft) ->
               refcount_of pfn ft1
               = (if bool_decide (pfn0 = pfn)
                  then refcount_of pfn ft - 1 else refcount_of pfn ft)).
    { intros ft1 pfn Hft1. rewrite (refcount_of_insert pfn pfn0 (c - 1) ft ft1 Hft1).
      destruct (bool_decide (pfn0 = pfn)) eqn:Heq; [|reflexivity].
      apply bool_decide_eq_true in Heq. subst pfn. rewrite Hrc. reflexivity. }
    destruct (is_zone_device_page pg) eqn:Hzone; simpl.
    + destruct (pgmap pg) as [m|] eqn:Hm; [|discriminate].
      intros Hfree. apply bool_decide_eq_true in Hfree. destruct Hfree as [h Hh].
      destruct (Z.eqb_spec (c - 1) 1) as [Hfloor|Hnot].
      * unfold dispatch_free. rewrite Hh.
        eexists. split; [reflexivity|]. split; [reflexivity|].
        split; [intros p; apply (frame_ready_insert p pfn0 (c - 1) c ft); auto|].
        split; [intros pfn; apply Hcount; reflexivity|].
        intros pfn Hdev.
        set (fc := {| fc_handler := h; fc_pfn := pfn0; fc_data := data m |}).
        exists (if bool_decide (fc_pfn fc = pfn) then [fc] else []).
        split; [apply (free_calls_app pfn (set_refcount pfn0 (c - 1) ft) fc)|].
        simpl. destruct (bool_decide (pfn0 = pfn)) eqn:Heq.
        -- apply bool_decide_eq_true in Heq. subst pfn. rewrite Hrc.
           destruct (Z.eqb_spec c 2); [|lia].
           split; [reflexivity|].
           constructor; [|constructor]. exists pg, m. simpl. auto.
        -- split; [reflexivity|constructor].
      * eexists. split; [reflexivity|]. split; [reflexivity|].
        split; [intros p; apply (frame_ready_insert p pfn0 (c - 1) c ft); auto|].
        split; [intros pfn; apply Hcount; reflexivity|].
        intros pfn _. exists []. rewrite app_nil_r.
        split; [reflexivity|]. split; [|constructor].
        simpl. destruct (bool_decide (pfn0 = pfn)) eqn:Heq; [|reflexivity].
        apply bool_decide_eq_true in Heq. subst pfn. rewrite Hrc.
        destruct (Z.eqb_spec c 2); [lia|reflexivity].
    + intros _.
      eexists. split; [reflexivity|]. split; [reflexivity|].
      split; [intros p; apply (frame_ready_insert p pfn0 (c - 1) c ft); auto|].
      split; [intros pfn; apply Hcount; reflexivity|].
      intros pfn Hdev. exists []. rewrite app_nil_r.
      split; [reflexivity|]. split; [|constructor].
      simpl. destruct (bool_decide (pfn0 = pfn)) eqn:Heq; [|reflexivity].
      apply bool_decide_eq_true in Heq. subst pfn.
      unfold device_backed in Hdev. rewrite Hpg, Hzone in Hdev. discriminate.
Qed.

Lemma device_backed_frames (pfn : Z) (ft ft1 : frame_table) :
  frames ft1 = frames ft -> device_backed pfn ft1 = device_backed pfn ft.
Proof. unfold device_backed. intros ->. reflexivity. Qed.

Lemma owner_call_frames (ft ft1 : frame_table) (fc : free_call) :
  frames ft1 = frames ft -> owner_call ft1 fc -> owner_call ft fc.
Proof. unfold owner_call. intros ->. auto. Qed.

(** A sequence of calls on ready frames runs to the end; the count of each
    frame is the one that counting gives, and [page_free] has been called
    for a device-backed frame once for each time its count went from 2 to
    1. *)
Lemma frame_run_ready (cs : list frame_call) :
  forall ft : frame_table,
    Forall (fun c => frame_ready ft (call_frame c) = true) cs ->
    exists ft' : frame_table,
      frame_run cs ft = Some ft' /\
      frames ft' = frames ft /\
      (forall pfn,
         refcount_of pfn ft' = refcount_after pfn (refcount_of pfn ft) cs) /\
      (forall pfn, device_backed pfn ft = true ->
         exists new : list free_call,
           free_calls pfn ft' = free_calls pfn ft ++ new /\
           length new = falls_to_one pfn (refcount_of pfn ft) cs /\
           Forall (owner_call ft) new).
Proof.
  induction cs as [|c cs IH]; intros ft Hready.
  - exists ft. simpl. repeat split.
    intros pfn _. exists []. rewrite app_nil_r. repeat split. constructor.
  - apply List.Forall_cons_iff in Hready. destruct Hready as [Hc Hcs].
    destruct (frame_step_ready c ft Hc)
      as (ft1 & Hstep & Hfr1 & Hready1 & Hcount1 & Hlog1).
    destruct (IH ft1) as (ft' & Hrun & Hfr & Hcount & Hlog).
    { eapply List.Forall_impl; [|exact Hcs].
      intros c' Hc'. simpl in Hc'. rewrite Hready1. exact Hc'. }
    exists ft'. simpl. rewrite Hstep.
    split; [exact Hrun|]. split; [congruence|]. split.
    + intros pfn. rewrite Hcount, Hcount1. destruct c; reflexivity.
    + intros pfn Hdev.
      destruct (Hlog1 pfn Hdev) as (new1 & Hnew1 & Hlen1 & Hown1).
      destruct (Hlog pfn) as (new & Hnew & Hlen & Hown).
      { rewrite (device_backed_frames pfn ft ft1 Hfr1). exact Hdev. }
      exists (new1 ++ new).
      split; [rewrite Hnew, Hnew1, app_assoc; reflexivity|].
      split.
      * rewrite length_app, Hlen1, Hlen, Hcount1.
        destruct c as [p|p]; simpl; [reflexivity|].
        destruct (bool_decide (p = pfn)); simpl; [|reflexivity].
        rewrite Nat.add_0_r. reflexivity.
      * apply Forall_app. split; [exact Hown1|].
        eapply List.Forall_impl; [|exact Hown].
        intros fc. apply owner_call_frames. exact Hfr1.
Qed.

Lemma puts_have_holders_app (pfn : Z) (cs1 cs2 : list frame_call) :
  forall c : Z,
    puts_have_holders pfn c (cs1 ++ cs2) = true ->
    puts_have_holders pfn c cs1 = true.
Proof.
  induction cs1 as [|[p|p] cs1 IH]; intros c; simpl; [reflexivity|apply IH|].
  destruct (bool_decide (p = pfn)); [|apply IH].
  rewrite !andb_true_iff. intros [Hc Hrest]. split; [exact Hc|].
  apply IH. exact Hrest.
Qed.

(** Counting alone: as long as every release has a holder behind it, the
    count stays at or above the floor. *)
Lemma refcount_after_floor (pfn : Z) (cs : list frame_call) :
  forall c : Z,
    1 <= c ->
    puts_have_holders pfn c cs = true ->
    1 <= refcount_after pfn c cs.
Proof.
  induction cs as [|[p|p] cs IH]; intros c Hc; simpl.
  - intros _. exact Hc.
  - apply IH. destruct (bool_decide (p = pfn)); lia.
  - destruct (bool_decide (p = pfn)); [|apply IH; exact Hc].
    rewrite andb_true_iff, Z.ltb_lt. intros [Hheld Hrest].
    apply IH; [lia|exact Hrest].
Qed.

(** C8 as stated fails, twice over.  The callback is not called exactly
    once per frame: a frame that is taken and released again falls to the
    floor again, and frame 5 below gets two calls.  And the count of a
    device-backed frame can reach 0: one release with no holder behind it
    (the refcount bug of the header comment) takes frame 5 from 1 to 0. *)
Lemma page_free_twice_and_refcount_zero :
  device_backed 5 ft_two = true /\
  refcount_of 5 ft_two = 1 /\
  (exists ft' : frame_table,
     frame_run two_holders ft_two = Some ft' /\
     length (free_calls 5 ft') = 2%nat) /\
  (exists ft' : frame_table,
     frame_run [PutPage 5] ft_two = Some ft' /\
     refcount_of 5 ft' = 0).
Proof.
  split; [reflexivity|]. split; [reflexivity|].
  split; eexists; split; reflexivity.
Qed.

(** C8, amended.  Take a frame table and any sequence of [get_page] and
    [put_page] calls on frames that are in the table and, when
    device-backed, belong to a region that supplies [page_free].  The
    sequence runs to the end, and in every state along it, for every
    device-backed frame: the count is the one that counting gives; the
    region's [page_free] has been called, with the region's [data], once
    for each time the frame's count fell from 2 to the floor 1 (so as often
    as the frame fell to the floor, not once per frame) and at no other
    point; and if the frame started at or above the floor and every
    [put_page] on it had a holder behind it (no refcount bug), the count is
    at least 1, never 0. *)
Theorem page_free_once_at_floor (cs : list frame_call) (ft : frame_table) :
  Forall (fun c => frame_ready ft (call_frame c) = true) cs ->
  (exists ft' : frame_table, frame_run cs ft = Some ft') /\
  (forall (pfn : Z) (cs1 cs2 : list frame_call),
     device_backed pfn ft = true ->
     cs = cs1 ++ cs2 ->
     exists (ft1 : frame_table) (new : list free_call),
       frame_run cs1 ft = Some ft1 /\
       refcount_of pfn ft1 = refcount_after pfn (refcount_of pfn ft) cs1 /\
       free_calls pfn ft1 = free_calls pfn ft ++ new /\
       length new = falls_to_one pfn (refcount_of pfn ft) cs1 /\
       Forall (owner_call ft) new /\
       (1 <= refcount_of pfn ft ->
        puts_have_holders pfn (refcount_of pfn ft) cs = true ->
        1 <= refcount_of pfn ft1)).
Proof.
  intros Hready. split.
  - destruct (frame_run_ready cs ft Hready) as (ft' & Hrun & _).
    exists ft'. exact Hrun.
  - intros pfn cs1 cs2 Hdev Hcs. rewrite Hcs in Hready.
    apply Forall_app in Hready. destruct Hready as [Hready1 _].
    destruct (frame_run_ready cs1 ft Hready1) as (ft1 & Hrun & _ & Hcount & Hlog).
    destruct (Hlog pfn Hdev) as (new & Hnew & Hlen & Hown).
    exists ft1, new.
    split; [exact Hrun|]. split; [apply Hcount|]. split; [exact Hnew|].
    split; [exact Hlen|]. split; [exact Hown|].
    intros Hfloor Hheld. rewrite Hcount.
    apply refcount_after_floor; [exact Hfloor|].
    rewrite Hcs in Hheld.
    apply (puts_have_holders_app pfn cs1 cs2). exact Hheld.
Qed.

Lemma page_free_once_at_floor_witness :
  falls_to_one 5 (refcount_of 5 ft_two) two_holders = 2%nat /\
  exists (ft1 : frame_table) (new : list free_call),
    frame_run two_holders ft_two = Some ft1 /\
    free_calls 5 ft1 = free_calls 5 ft_two ++ new /\
    length new = falls_to_one 5 (refcount_of 5 ft_two) two_holders /\
    1 <= refcount_of 5 ft1.
Proof.
  split; [reflexivity|].
  assert (Hready : Forall (fun c => frame_ready ft_two (call_frame c) = true)
                     two_holders)
    by (repeat constructor).
  destruct (page_free_once_at_floor two_holders ft_two Hready) as [_ Halong].
  destruct (Halong 5 two_holders [] eq_refl eq_refl)
    as (ft1 & new & Hrun & _ & Hnew & Hlen & _ & Hfloor).
  exists ft1, new.
  split; [exact Hrun|]. split; [exact Hnew|]. split; [exact Hlen|].
  apply Hfloor; [vm_compute; discriminate|reflexivity].
Defined.

(** * Further properties of the header *)

(** ** Classification *)

Lemma and_then_inv (a : bool) (b : option bool) (r : bool) :
  and_then a b = Some r -> a = false /\ r = false \/ a = true /\ b = Some r.
Proof.
  destruct a; simpl.
  - intros ->. right. auto.
  - intros H. injection H as <-. left. auto.
Qed.

Lemma two_types_at_once (pg : page) (t1 t2 : memory_type) :
  t1 <> t2 ->
  ~ (and_then (is_zone_device_page pg) (pgmap_type_is pg t1) = Some true /\
     and_then (is_zone_device_page pg) (pgmap_type_is pg t2) = Some true).
Proof.
  intros Hne [H1 H2].
  apply and_then_true in H1. apply and_then_true in H2.
  destruct H1 as [_ H1], H2 as [_ H2].
  apply pgmap_type_is_true in H1. apply pgmap_type_is_true in H2.
  congruence.
Qed.

(** X2.  In every configuration, no page is classified under two of the
    three predicates at once. *)
Theorem classification_exclusive (cfg : kconfig) (pg : page) :
  ~ (is_device_private_page pg = Some true /\
     is_device_public_page pg = Some true) /\
  ~ (is_device_private_page pg = Some true /\
     is_pci_p2pdma_page cfg pg = Some true) /\
  ~ (is_device_public_page pg = Some true /\
     is_pci_p2pdma_page cfg pg = Some true).
Proof.
  unfold is_device_private_page, is_device_public_page, is_pci_p2pdma_page.
  split; [apply two_types_at_once; discriminate|].
  destruct (CONFIG_PCI_P2PDMA cfg).
  - split; apply two_types_at_once; discriminate.
  - split; intros [_ H]; discriminate H.
Qed.

Lemma and_then_fault (a : bool) (b : option bool) :
  and_then a b = None <-> a = true /\ b = None.
Proof.
  destruct a; simpl; split.
  - intros ->. auto.
  - intros [_ ->]. reflexivity.
  - discriminate.
  - intros [H _]. discriminate H.
Qed.

Lemma pgmap_type_is_fault (pg : page) (t : memory_type) :
  pgmap_type_is pg t = None <-> pgmap pg = None.
Proof.
  unfold pgmap_type_is. destruct (pgmap pg); split; try discriminate; reflexivity.
Qed.

(** X3.  The back-reference of a page is read only when the page is
    device-backed: on any other page the three predicates answer false,
    null back-reference or not; a predicate faults exactly on a
    device-backed page with a null back-reference, and the peer-to-peer
    predicate, compiled out, never faults. *)
Theorem classification_reads_pgmap_of_device_pages (cfg : kconfig) (pg : page) :
  (is_zone_device_page pg = false ->
     is_device_private_page pg = Some false /\
     is_device_public_page pg = Some false /\
     is_pci_p2pdma_page cfg pg = Some false) /\
  (is_device_private_page pg = None <->
     is_zone_device_page pg = true /\ pgmap pg = None) /\
  (is_device_public_page pg = None <->
     is_zone_device_page pg = true /\ pgmap pg = None) /\
  (is_pci_p2pdma_page cfg pg = None <->
     CONFIG_PCI_P2PDMA cfg = true /\
     is_zone_device_page pg = true /\ pgmap pg = None).
Proof.
  unfold is_device_private_page, is_device_public_page, is_pci_p2pdma_page.
  split.
  { intros ->. simpl. destruct (CONFIG_PCI_P2PDMA cfg); auto. }
  rewrite !and_then_fault, !pgmap_type_is_fault.
  split; [reflexivity|]. split; [reflexivity|].
  destruct (CONFIG_PCI_P2PDMA cfg).
  - rewrite and_then_fault, pgmap_type_is_fault. tauto.
  - split; [discriminate|]. intros [H _]. discriminate H.
Qed.

(** X4.  With peer-to-peer support compiled in, a device-backed page that
    refers back to a region is classified under none of the three
    predicates exactly when the region is host memory
    (MEMORY_DEVICE_HOST). *)
Theorem host_pages_are_unclassified (cfg : kconfig) (pg : page)
    (m : dev_pagemap) :
  CONFIG_PCI_P2PDMA cfg = true ->
  is_zone_device_page pg = true ->
  pgmap pg = Some m ->
  (is_device_private_page pg = Some false /\
   is_device_public_page pg = Some false /\
   is_pci_p2pdma_page cfg pg = Some false) <->
  type m = MEMORY_DEVICE_HOST.
Proof.
  intros Hon Hzone Hm.
  unfold is_device_private_page, is_device_public_page, is_pci_p2pdma_page,
    pgmap_type_is.
  rewrite Hon, Hzone, Hm. simpl.
  destruct (type m); simpl; split;
    try reflexivity; try (intros (H1 & H2 & H3); discriminate);
    try discriminate; auto.
Qed.

Lemma host_pages_are_unclassified_witness :
  is_device_private_page host_page = Some false /\
  is_device_public_page host_page = Some false /\
  is_pci_p2pdma_page cfg_all host_page = Some false.
Proof.
  apply (host_pages_are_unclassified cfg_all host_page host_region
           eq_refl eq_refl eq_refl).
  reflexivity.
Defined.

(** ** The header without device-backed memory support *)

Lemma compiled_out_call (cfg : kconfig) (plat : platform) (c : call)
    (st : system) :
  CONFIG_ZONE_DEVICE cfg = false ->
  header_call c = true ->
  exists st' : system,
    do_call cfg plat c st = Some st' /\
    index st' = index st /\ cache st' = cache st /\ pins st' = pins st /\
    teardowns st' = teardowns st /\ unregistered st' = unregistered st /\
    warned st' = warned st || is_register c.
Proof.
  intros Hoff Hc. destruct c as [d p|pfn|p|[p|]]; try discriminate Hc; simpl.
  - unfold devm_memremap_pages. rewrite Hoff. simpl.
    eexists. split; [reflexivity|]. simpl.
    rewrite orb_true_r. repeat split.
  - unfold lookup, get_dev_pagemap. rewrite Hoff. simpl.
    exists st. rewrite orb_false_r. repeat split.
  - exists st. rewrite orb_false_r. repeat split.
Qed.

(** X5.  Without CONFIG_ZONE_DEVICE, any sequence of registrations, lookups
    and releases of a null handle runs to the end and leaves the index, the
    cache, the pin counts and the logs as they were; the only trace is the
    kernel warning, raised as soon as one registration was attempted. *)
Theorem compiled_out_calls_change_nothing (cfg : kconfig) (plat : platform)
    (cs : list call) (st : system) :
  CONFIG_ZONE_DEVICE cfg = false ->
  forallb header_call cs = true ->
  exists st' : system,
    run cfg plat cs st = Some st' /\
    index st' = index st /\ cache st' = cache st /\ pins st' = pins st /\
    teardowns st' = teardowns st /\ unregistered st' = unregistered st /\
    warned st' = warned st || existsb is_register cs.
Proof.
  intros Hoff. revert st.
  induction cs as [|c cs IH]; intros st Hcs; simpl.
  - exists st. rewrite orb_false_r. repeat split.
  - simpl in Hcs. apply andb_true_iff in Hcs. destruct Hcs as [Hc Hcs].
    destruct (compiled_out_call cfg plat c st Hoff Hc)
      as (st1 & -> & Hi & Hca & Hp & Ht & Hu & Hw).
    destruct (IH st1 Hcs) as (st' & Hrun & Hi' & Hca' & Hp' & Ht' & Hu' & Hw').
    exists st'. split; [exact Hrun|].
    rewrite Hi', Hca', Hp', Ht', Hu', Hw', Hw, orb_assoc.
    repeat split; assumption.
Qed.

Lemma compiled_out_calls_change_nothing_witness :
  exists st' : system,
    run cfg_none plat_4k header_calls st_one = Some st' /\
    index st' = index st_one /\
    pins st' = pins st_one /\
    warned st' = true.
Proof.
  destruct (compiled_out_calls_change_nothing cfg_none plat_4k header_calls
              st_one eq_refl eq_refl)
    as (st' & Hrun & Hi & _ & Hp & _ & _ & Hw).
  exists st'. split; [exact Hrun|]. split; [exact Hi|]. split; [exact Hp|].
  rewrite Hw. reflexivity.
Defined.

Lemma altmap_step_free_compiled_out (cfg : kconfig) (plat : platform)
    (a : vmem_altmap) (n : Z) :
  CONFIG_ZONE_DEVICE cfg = false ->
  altmap_step cfg plat a (Free n) = a.
Proof.
  intros Hoff. simpl. unfold vmem_altmap_free. rewrite Hoff. reflexivity.
Qed.

(** X6.  Without CONFIG_ZONE_DEVICE, [vmem_altmap_free] gives nothing back:
    a sequence of allocator calls leaves a reservation exactly as the same
    sequence without its frees does, and unchanged when it holds nothing
    but frees; and [vmem_altmap_offset] is 0 for every reservation. *)
Theorem compiled_out_altmap_stubs (cfg : kconfig) (plat : platform)
    (body : vmem_altmap -> Z) (ops : list altmap_op) (a : vmem_altmap) :
  CONFIG_ZONE_DEVICE cfg = false ->
  altmap_run cfg plat ops a
  = altmap_run cfg plat (List.filter (fun o => negb (is_free_op o)) ops) a /\
  (forallb is_free_op ops = true -> altmap_run cfg plat ops a = a) /\
  vmem_altmap_offset cfg body (altmap_run cfg plat ops a) = 0.
Proof.
  intros Hoff.
  assert (Hdrop : forall ops a,
             altmap_run cfg plat ops a
             = altmap_run cfg plat
                 (List.filter (fun o => negb (is_free_op o)) ops) a).
  { clear ops a. unfold altmap_run.
    induction ops as [|o ops IH]; intros a; simpl; [reflexivity|].
    destruct o as [n|n].
    - simpl. apply IH.
    - rewrite <- IH. f_equal.
      apply (altmap_step_free_compiled_out cfg plat a n Hoff). }
  split; [apply Hdrop|]. split.
  - intros Hfrees. rewrite Hdrop.
    assert (Hnone : List.filter (fun o => negb (is_free_op o)) ops = []).
    { clear a. induction ops as [|o ops IH]; [reflexivity|].
      simpl in Hfrees. apply andb_true_iff in Hfrees.
      destruct Hfrees as [Ho Hfrees]. simpl. rewrite Ho. simpl.
      apply IH. exact Hfrees. }
    rewrite Hnone. reflexivity.
  - unfold vmem_altmap_offset. rewrite Hoff. reflexivity.
Qed.

Lemma compiled_out_altmap_stubs_witness :
  altmap_run cfg_none plat_4k [Free 3; Allocate 2; Free 2] altmap_odd
  = altmap_run cfg_none plat_4k [Allocate 2] altmap_odd /\
  free (altmap_run cfg_none plat_4k [Free 3; Allocate 2; Free 2] altmap_odd) = 7 /\
  altmap_run cfg_none plat_4k [Free 3; Free 2] altmap_odd = altmap_odd.
Proof.
  destruct (compiled_out_altmap_stubs cfg_none plat_4k (fun a => reserve a)
              [Free 3; Allocate 2; Free 2] altmap_odd eq_refl) as (Hdrop & _).
  destruct (compiled_out_altmap_stubs cfg_none plat_4k (fun a => reserve a)
              [Free 3; Free 2] altmap_odd eq_refl) as (_ & Hsame & _).
  split; [exact Hdrop|]. split; [reflexivity|].
  apply Hsame. reflexivity.
Defined.

(** X7.  Without CONFIG_ZONE_DEVICE, looking a frame up and releasing what
    the lookup returned leaves the state as it was, whatever frame and
    cached handle are passed: the lookup yields a null handle and the
    release of a null handle does nothing. *)
Theorem compiled_out_lookup_then_release (cfg : kconfig) (plat : platform)
    (pfn : Z) (cached : option dev_pagemap) (st : system) :
  CONFIG_ZONE_DEVICE cfg = false ->
  put_dev_pagemap (get_dev_pagemap cfg plat pfn cached st) st = Some st.
Proof.
  intros Hoff. unfold get_dev_pagemap. rewrite Hoff. reflexivity.
Qed.

Lemma compiled_out_lookup_then_release_witness :
  contains plat_4k (with_dev host_region 3) 2 = true /\
  put_dev_pagemap
    (get_dev_pagemap cfg_none plat_4k 2 (Some (with_dev host_region 3)) st_one)
    st_one
  = Some st_one.
Proof.
  split; [reflexivity|].
  apply (compiled_out_lookup_then_release cfg_none plat_4k 2
           (Some (with_dev host_region 3)) st_one eq_refl).
Defined.

(** ** Releasing pins *)

(** X8.  Releases of a null handle can be dropped from any sequence of
    calls: the sequence ends in the same state, or trips the fatal path,
    just as it does without them. *)
Theorem null_releases_are_idle (cfg : kconfig) (plat : platform)
    (cs : list call) (st : system) :
  run cfg plat cs st
  = run cfg plat (List.filter (fun c => negb (is_null_release c)) cs) st.
Proof.
  revert st. induction cs as [|c cs IH]; intros st; [reflexivity|].
  destruct (is_null_release c) eqn:Hnull.
  - destruct c as [d p|pfn|p|[p|]]; try discriminate Hnull.
    simpl. apply IH.
  - simpl. rewrite Hnull. simpl.
    destruct (do_call cfg plat c st) as [st1|]; [apply IH|reflexivity].
Qed.
